(** * ManageSource: the document management page

    A shallow embedding of [frontend/src/pages/ManageSource.jsx]: the
    filter/sort engine ([filterAndSortDocuments]), the selection handlers
    ([handleSelectDocument], [handleSelectAll]), the sort toggle
    ([handleSort]), the loader ([loadDocuments]) and the bulk delete
    workflow ([handleDeleteSelected]).

    Layout: [JS] holds the fragments of the JavaScript standard library the
    component calls; [ManageSource] holds the component, with React state
    as a record, handlers as computations in a small state/exception/trace
    monad, and the two network calls answered by a [Server] oracle. *)

From Stdlib Require Import ZArith QArith List String Ascii Bool Lia.
From Stdlib Require Import Permutation Sorted OrderedTypeEx DecimalString.
From Stdlib Require Import DecimalPos DecimalZ.
Import ListNotations.

Local Open Scope Z_scope.

(* ================================================================== *)
(** * The JavaScript built-ins used by the component                   *)
(* ================================================================== *)

Module JS.

(** ** Number

    A JavaScript Number is a binary64 value.  The finite ones are carried
    by the rational they denote, in lowest terms where [parseFloat]
    produces them; [-0] and [+0] are both [Finite 0], which no comparison
    of the component can tell apart. *)
Inductive Number : Type :=
| NaN
| PosInf
| NegInf
| Finite (q : Q).

Definition isNaN (x : Number) : bool :=
  match x with NaN => true | _ => false end.

(** [a >= b] on Numbers: false as soon as one side is [NaN]. *)
Definition Number_ge (a b : Number) : bool :=
  match a, b with
  | NaN, _ | _, NaN => false
  | PosInf, _ => true
  | _, NegInf => true
  | Finite x, Finite y => Qle_bool y x
  | Finite _, PosInf => false
  | NegInf, _ => false
  end.

(** [n / d] rounded to the nearest integer, ties to even ([0 <= n], [0 < d]). *)
Definition round_half_even (n d : Z) : Z :=
  let q := n / d in
  match (2 * (n mod d) ?= d) with
  | Lt => q
  | Gt => q + 1
  | Eq => if Z.even q then q else q + 1
  end.

(** The fraction [n / d * 2^(-k)], numerator and denominator. *)
Definition scale2 (n d k : Z) : Z * Z :=
  if 0 <=? k then (n, d * 2 ^ k) else (n * 2 ^ (- k), d).

(** Round-to-nearest-even of the positive rational [n / d] to binary64:
    53 significant bits, least exponent [-1074] (subnormals), overflow to
    infinity from [2^1024] on. *)
Definition binary64_of_pos (n d : positive) : Number :=
  let e0 := Z.log2 (Zpos n) - Z.log2 (Zpos d) in
  let '(n0, d0) := scale2 (Zpos n) (Zpos d) e0 in
  let e := if d0 <=? n0 then e0 else e0 - 1 in
  let q := Z.max (e - 52) (-1074) in
  let '(n1, d1) := scale2 (Zpos n) (Zpos d) q in
  let m := round_half_even n1 d1 in
  if (971 <? q) || ((q =? 971) && (2 ^ 53 <=? m)) then PosInf
  else if 0 <=? q then Finite (Qmake (m * 2 ^ q) 1)
  else Finite (Qred (Qmake m (Z.to_pos (2 ^ (- q))))).

Definition Number_neg (x : Number) : Number :=
  match x with
  | NaN => NaN
  | PosInf => NegInf
  | NegInf => PosInf
  | Finite q => Finite (Qopp q)
  end.

Definition binary64_of_Q (x : Q) : Number :=
  match Qnum x with
  | Z0 => Finite 0
  | Zpos n => binary64_of_pos n (Qden x)
  | Zneg n => Number_neg (binary64_of_pos n (Qden x))
  end.

(** ** parseFloat

    [parseFloat] skips leading white space and reads the longest prefix
    that is a [StrDecimalLiteral]; without such a prefix the result is
    [NaN].  Strings are sequences of ASCII characters here. *)
Definition is_space (c : ascii) : bool :=
  let n := nat_of_ascii c in
  (((9 <=? n) && (n <=? 13)) || (n =? 32))%nat.

Definition is_digit (c : ascii) : bool :=
  let n := nat_of_ascii c in ((48 <=? n) && (n <=? 57))%nat.

Definition digit_val (c : ascii) : Z := Z.of_nat (nat_of_ascii c) - 48.

Fixpoint trimStart (s : string) : string :=
  match s with
  | String c s' => if is_space c then trimStart s' else s
  | EmptyString => s
  end.

(** Reads a run of decimal digits: the value accumulated on [acc], the
    number of digits read added to [cnt], and the rest of the string. *)
Fixpoint read_digits (s : string) (acc cnt : Z) : Z * Z * string :=
  match s with
  | String c s' =>
      if is_digit c then read_digits s' (10 * acc + digit_val c) (cnt + 1)
      else (acc, cnt, s)
  | EmptyString => (acc, cnt, s)
  end.

(** An optional sign: [true] for a minus. *)
Definition read_sign (s : string) : bool * string :=
  match s with
  | String "-"%char s' => (true, s')
  | String "+"%char s' => (false, s')
  | _ => (false, s)
  end.

(** The value of an [ExponentPart] at the head of [s], [0] when there is
    none (an indicator that no digit follows is not consumed). *)
Definition read_exponent (s : string) : Z :=
  match s with
  | String c s' =>
      if (Ascii.eqb c "e" || Ascii.eqb c "E")%bool then
        let '(neg, s'') := read_sign s' in
        let '(v, n, _) := read_digits s'' 0 0 in
        if n =? 0 then 0 else if neg then - v else v
      else 0
  | EmptyString => 0
  end.

(** The rational [m * 10^e]. *)
Definition decimal_value (m e : Z) : Q :=
  if 0 <=? e then Qmake (m * 10 ^ e) 1
  else Qmake m (Z.to_pos (10 ^ (- e))).

Definition parseFloat (input : string) : Number :=
  let '(neg, s) := read_sign (trimStart input) in
  if String.prefix "Infinity" s then (if neg then NegInf else PosInf)
  else
    let '(ip, ni, s1) := read_digits s 0 0 in
    let '(m, nf, s2) :=
      match s1 with
      | String "."%char t => read_digits t ip 0
      | _ => (ip, 0, s1)
      end in
    if ni + nf =? 0 then NaN
    else
      let v := binary64_of_Q (decimal_value m (read_exponent s2 - nf)) in
      if neg then Number_neg v else v.

(** ** Date

    A Date object holds a time value: a number of milliseconds since the
    epoch, or [NaN] for an Invalid Date ([None]). *)
Definition Date : Type := option Z.

Definition getTime (d : Date) : Date := d.

(** [a < b] and [a >= b] on time values; false when either is [NaN]. *)
Definition time_lt (a b : Date) : bool :=
  match a, b with
  | Some x, Some y => x <? y
  | _, _ => false
  end.

Definition Date_ge (a b : Date) : bool :=
  match a, b with
  | Some x, Some y => y <=? x
  | _, _ => false
  end.

(** ** String

    Strings are sequences of ASCII characters, on which [toLowerCase]
    maps each of [A]-[Z] to its lower-case letter and nothing else.  What
    is stated of the text of a name or of a search term is stated for
    ASCII text. *)

Definition lower_ascii (c : ascii) : ascii :=
  let n := nat_of_ascii c in
  if ((65 <=? n) && (n <=? 90))%nat then ascii_of_nat (n + 32) else c.

Fixpoint toLowerCase (s : string) : string :=
  match s with
  | String c s' => String (lower_ascii c) (toLowerCase s')
  | EmptyString => EmptyString
  end.

(** [s.includes(sub)] *)
Fixpoint includes (s sub : string) : bool :=
  String.prefix sub s ||
  match s with
  | String _ s' => includes s' sub
  | EmptyString => false
  end.

(** A string is truthy when it is not empty. *)
Definition truthy (s : string) : bool :=
  match s with EmptyString => false | _ => true end.

(** Decimal rendering of an integer, as a template literal prints it. *)
Definition Number_toString (n : Z) : string :=
  NilZero.string_of_int (Z.to_int n).

(** ** Array *)

(** [arr.find(p)]: the first element satisfying [p], [None] for
    [undefined]. *)
Definition Array_find {A} (p : A -> bool) (arr : list A) : option A :=
  List.find p arr.

(** [arr.sort(cmp)].  The sort is stable; the element [x], which stood
    before every element of the already sorted rest, stays before [y]
    unless [cmp x y > 0].  For a comparator that is a total preorder this
    is the result every conforming engine returns.  For an inconsistent
    comparator (the component's has one case: an Invalid Date under the
    key 'uploadDate') the order is the engine's own and is not modelled;
    no statement below is made for that case. *)
Fixpoint sort_insert {A} (cmp : A -> A -> Z) (x : A) (l : list A) : list A :=
  match l with
  | [] => [x]
  | y :: l' => if 0 <? cmp x y then y :: sort_insert cmp x l' else x :: l
  end.

Fixpoint Array_sort {A} (cmp : A -> A -> Z) (arr : list A) : list A :=
  match arr with
  | [] => []
  | x :: arr' => sort_insert cmp x (Array_sort cmp arr')
  end.

(** ** Set (of strings)

    A Set iterates in insertion order and holds no value twice: a list of
    pairwise distinct strings, in insertion order. *)
Module StrSet.

Definition t : Type := list string.

Definition empty : t := [].

Definition has (x : string) (s : t) : bool := existsb (String.eqb x) s.

Definition add (x : string) (s : t) : t := if has x s then s else s ++ [x].

Definition delete (x : string) (s : t) : t :=
  filter (fun y => negb (String.eqb x y)) s.

Definition size (s : t) : Z := Z.of_nat (List.length s).

(** [new Set(arr)] *)
Definition of_array (arr : list string) : t :=
  fold_left (fun s x => add x s) arr empty.

(** [new Set(s)], a copy. *)
Definition copy (s : t) : t := s.

(** [Array.from(s)] *)
Definition to_array (s : t) : list string := s.

End StrSet.

End JS.

(* ================================================================== *)
(** * The component                                                    *)
(* ================================================================== *)

Module ManageSource.

Import JS.

Local Open Scope string_scope.
Local Open Scope Z_scope.
Local Open Scope list_scope.

(** ** The host environment

    [new Date(string)] depends on the engine and on the local time zone;
    it is the one built-in the component takes from its host. *)
Class Host : Type := { Date_parse : string -> Date }.

(** [new Date(v)] for [v] a string or [undefined]. *)
Definition Date_new {host : Host} (v : option string) : Date :=
  match v with
  | Some s => Date_parse s
  | None => None
  end.

(** ** Data *)

(** One element of [response.pdfs], as the backend sends it.  The two
    time fields may be missing. *)
Record RawDocument : Type := {
  stored_filename : string;
  original_filename : string;
  processed_time : option string;
  uploaded_time : option string;
  file_size : Z;
  file_hash : string
}.

Record ListResponse : Type := { pdfs : list RawDocument }.

Record DeleteResponse : Type := { total_deleted : Z }.

(** A document as [loadDocuments] stores it. *)
Record Document : Type := {
  id : string;
  name : string;
  storedFilename : string;
  uploadDate : Date;
  size : Z;
  fileHash : string
}.

(** The three keys [handleSort] is called with. *)
Inductive SortKey : Type := key_name | key_uploadDate | key_size.

Inductive Direction : Type := asc | desc.

(** [sortConfig]; [key = None] is [key: null]. *)
Record SortConfig : Type := {
  key : option SortKey;
  direction : Direction
}.

Definition SortKey_eqb (a b : SortKey) : bool :=
  match a, b with
  | key_name, key_name
  | key_uploadDate, key_uploadDate
  | key_size, key_size => true
  | _, _ => false
  end.

Definition Direction_eqb (a b : Direction) : bool :=
  match a, b with
  | asc, asc | desc, desc => true
  | _, _ => false
  end.

(** The [useState] cells of the component. *)
Record Component : Type := {
  documents : list Document;
  filteredDocuments : list Document;
  loading : bool;
  selectedDocuments : StrSet.t;
  searchTerm : string;
  sortConfig : SortConfig;
  showDeleteConfirm : bool;
  sizeFilter : string;
  dateFilter : string
}.

(** The state of the first render. *)
Definition initial : Component := {|
  documents := [];
  filteredDocuments := [];
  loading := true;
  selectedDocuments := StrSet.empty;
  searchTerm := "";
  sortConfig := {| key := None; direction := asc |};
  showDeleteConfirm := false;
  sizeFilter := "";
  dateFilter := ""
|}.

(** ** Effects

    What a handler does to the outside: toasts, console output and the
    two requests of [lib/api]. *)
Inductive Event : Type :=
| ToastError (msg : string)
| ToastSuccess (msg : string)
| ConsoleError (msg : string)
| CallGetDocuments
| CallDeleteDocuments (fileHashes : list string).

Inductive Exn : Type :=
| TypeError      (* a property read on [undefined] *)
| RequestError.  (* a rejected request *)

Inductive Reply (A : Type) : Type :=
| Resolved (a : A)
| Rejected.

Arguments Resolved {A} a.
Arguments Rejected {A}.

(** The backend, as one handler run sees it. *)
Record Server : Type := {
  getDocuments : Reply ListResponse;
  deleteDocuments : list string -> Reply DeleteResponse
}.

Inductive Completion (A : Type) : Type :=
| Normal (a : A)
| Throw (e : Exn).

Arguments Normal {A} a.
Arguments Throw {A} e.

(** A computation reads and writes the state cells, emits events and
    completes normally or by an exception. *)
Definition M (A : Type) : Type :=
  Component -> Completion A * Component * list Event.

Definition ret {A} (a : A) : M A := fun s => (Normal a, s, []).

Definition bind {A B} (m : M A) (k : A -> M B) : M B := fun s =>
  match m s with
  | (Normal a, s1, t1) => let '(r, s2, t2) := k a s1 in (r, s2, t1 ++ t2)
  | (Throw e, s1, t1) => (Throw e, s1, t1)
  end.

Definition throw {A} (e : Exn) : M A := fun s => (Throw e, s, []).

Definition emit (e : Event) : M unit := fun s => (Normal tt, s, [e]).

Definition modify (f : Component -> Component) : M unit :=
  fun s => (Normal tt, f s, []).

(** [try { body } catch (error) { handler }] *)
Definition try_catch {A} (body : M A) (handler : Exn -> M A) : M A := fun s =>
  match body s with
  | (Normal a, s1, t1) => (Normal a, s1, t1)
  | (Throw e, s1, t1) => let '(r, s2, t2) := handler e s1 in (r, s2, t1 ++ t2)
  end.

(** [try { body } finally { fin }] *)
Definition try_finally {A} (body : M A) (fin : M unit) : M A := fun s =>
  let '(r, s1, t1) := body s in
  match fin s1 with
  | (Normal _, s2, t2) => (r, s2, t1 ++ t2)
  | (Throw e, s2, t2) => (Throw e, s2, t1 ++ t2)
  end.

Declare Scope js_scope.
Delimit Scope js_scope with js.

Notation "x <- m ;; k" := (bind m (fun x => k))
  (at level 61, m at next level, right associativity) : js_scope.
Notation "m ;; k" := (bind m (fun _ => k))
  (at level 61, right associativity) : js_scope.

Local Open Scope js_scope.

Fixpoint mapM {A B} (callback : A -> M B) (arr : list A) : M (list B) :=
  match arr with
  | x :: rest =>
      y <- callback x ;; ys <- mapM callback rest ;; ret (y :: ys)
  | [] => ret []
  end.

(** [arr.map((x, index) => f x index)], indices from [i] on. *)
Fixpoint mapi_from {A B} (f : A -> Z -> B) (i : Z) (l : list A) : list B :=
  match l with
  | [] => []
  | x :: l' => f x i :: mapi_from f (i + 1) l'
  end.

Definition result_of {A} (m : M A) (s : Component) : Completion A :=
  fst (fst (m s)).

Definition state_of {A} (m : M A) (s : Component) : Component :=
  snd (fst (m s)).

Definition trace_of {A} (m : M A) (s : Component) : list Event :=
  snd (m s).

(** ** State setters *)

Definition setDocuments (v : list Document) : M unit :=
  modify (fun s => {|
    documents := v;
    filteredDocuments := filteredDocuments s;
    loading := loading s;
    selectedDocuments := selectedDocuments s;
    searchTerm := searchTerm s;
    sortConfig := sortConfig s;
    showDeleteConfirm := showDeleteConfirm s;
    sizeFilter := sizeFilter s;
    dateFilter := dateFilter s |}).

Definition setFilteredDocuments (v : list Document) : M unit :=
  modify (fun s => {|
    documents := documents s;
    filteredDocuments := v;
    loading := loading s;
    selectedDocuments := selectedDocuments s;
    searchTerm := searchTerm s;
    sortConfig := sortConfig s;
    showDeleteConfirm := showDeleteConfirm s;
    sizeFilter := sizeFilter s;
    dateFilter := dateFilter s |}).

Definition setLoading (v : bool) : M unit :=
  modify (fun s => {|
    documents := documents s;
    filteredDocuments := filteredDocuments s;
    loading := v;
    selectedDocuments := selectedDocuments s;
    searchTerm := searchTerm s;
    sortConfig := sortConfig s;
    showDeleteConfirm := showDeleteConfirm s;
    sizeFilter := sizeFilter s;
    dateFilter := dateFilter s |}).

Definition setSelectedDocuments (v : StrSet.t) : M unit :=
  modify (fun s => {|
    documents := documents s;
    filteredDocuments := filteredDocuments s;
    loading := loading s;
    selectedDocuments := v;
    searchTerm := searchTerm s;
    sortConfig := sortConfig s;
    showDeleteConfirm := showDeleteConfirm s;
    sizeFilter := sizeFilter s;
    dateFilter := dateFilter s |}).

Definition setSortConfig (v : SortConfig) : M unit :=
  modify (fun s => {|
    documents := documents s;
    filteredDocuments := filteredDocuments s;
    loading := loading s;
    selectedDocuments := selectedDocuments s;
    searchTerm := searchTerm s;
    sortConfig := v;
    showDeleteConfirm := showDeleteConfirm s;
    sizeFilter := sizeFilter s;
    dateFilter := dateFilter s |}).

Definition setShowDeleteConfirm (v : bool) : M unit :=
  modify (fun s => {|
    documents := documents s;
    filteredDocuments := filteredDocuments s;
    loading := loading s;
    selectedDocuments := selectedDocuments s;
    searchTerm := searchTerm s;
    sortConfig := sortConfig s;
    showDeleteConfirm := v;
    sizeFilter := sizeFilter s;
    dateFilter := dateFilter s |}).

(** ** The API client and the notifier, as computations *)

Definition await {A} (call : Event) (reply : Reply A) : M A := fun s =>
  match reply with
  | Resolved a => (Normal a, s, [call])
  | Rejected => (Throw RequestError, s, [call])
  end.

Definition toast_error (msg : string) : M unit := emit (ToastError msg).
Definition toast_success (msg : string) : M unit := emit (ToastSuccess msg).
Definition console_error (msg : string) : M unit := emit (ConsoleError msg).

(** ** loadDocuments *)

(** [a || b] on values that are strings or [undefined]. *)
Definition or_else (a b : option string) : option string :=
  match a with
  | Some s => if truthy s then a else b
  | None => b
  end.

(** The callback of [response.pdfs.map]. *)
Definition processDoc {host : Host} (doc : RawDocument) (index : Z) : Document := {|
  id := if truthy (stored_filename doc) then stored_filename doc
        else ("doc-" ++ Number_toString index)%string;
  name := original_filename doc;
  storedFilename := stored_filename doc;
  uploadDate := Date_new (or_else (processed_time doc) (uploaded_time doc));
  size := file_size doc;
  fileHash := file_hash doc
|}.

Definition loadDocuments {host : Host} (api : Server) : M unit :=
  try_finally
    (try_catch
       (setLoading true ;;
        response <- await CallGetDocuments (getDocuments api) ;;
        let processedDocs := mapi_from processDoc 0 (pdfs response) in
        setDocuments processedDocs)
       (fun error =>
          console_error "Error loading documents:" ;;
          toast_error "Failed to load documents"))
    (setLoading false).

(** ** filterAndSortDocuments *)

(** Apply search filter *)
Definition applySearchFilter (searchTerm : string) (filtered : list Document)
  : list Document :=
  if truthy searchTerm then
    filter (fun doc =>
              includes (toLowerCase (name doc)) (toLowerCase searchTerm))
           filtered
  else filtered.

(** [doc.size / (1024 * 1024)].  A size is an integer of less than 54
    bits, so the division by [2^20] is exact in binary64. *)
Definition docSizeMB (doc : Document) : Number :=
  Finite (Qmake (size doc) (Z.to_pos (1024 * 1024))).

(** Apply size filter *)
Definition applySizeFilter (sizeFilter : string) (filtered : list Document)
  : list Document :=
  if truthy sizeFilter then
    let sizeValue := parseFloat sizeFilter in
    if negb (isNaN sizeValue) then
      filter (fun doc => Number_ge (docSizeMB doc) sizeValue) filtered
    else filtered
  else filtered.

(** Apply date filter *)
Definition applyDateFilter {host : Host} (dateFilter : string)
  (filtered : list Document) : list Document :=
  if truthy dateFilter then
    let filterDate := Date_parse dateFilter in
    filter (fun doc => Date_ge (uploadDate doc) filterDate) filtered
  else filtered.

(** The comparator handed to [filtered.sort] for the key [k]: the two
    tests [aValue < bValue] and [aValue > bValue] on the values the key
    selects, then the sign the direction asks for. *)
Definition compareDocs (k : SortKey) (dir : Direction) (a b : Document) : Z :=
  let '(lt, gt) :=
    match k with
    | key_uploadDate =>
        (time_lt (getTime (uploadDate a)) (getTime (uploadDate b)),
         time_lt (getTime (uploadDate b)) (getTime (uploadDate a)))
    | key_size => (size a <? size b, size b <? size a)
    | key_name =>
        (String.ltb (toLowerCase (name a)) (toLowerCase (name b)),
         String.ltb (toLowerCase (name b)) (toLowerCase (name a)))
    end in
  if lt then (match dir with asc => -1 | desc => 1 end)
  else if gt then (match dir with asc => 1 | desc => -1 end)
  else 0.

(** Apply sorting *)
Definition applySorting (cfg : SortConfig) (filtered : list Document)
  : list Document :=
  match key cfg with
  | Some k => Array_sort (compareDocs k (direction cfg)) filtered
  | None => filtered
  end.

(** The array the function hands to [setFilteredDocuments]. *)
Definition deriveView {host : Host} (c : Component) : list Document :=
  applySorting (sortConfig c)
    (applyDateFilter (dateFilter c)
       (applySizeFilter (sizeFilter c)
          (applySearchFilter (searchTerm c) (documents c)))).

Definition filterAndSortDocuments {host : Host} (c : Component) : M unit :=
  setFilteredDocuments (deriveView c).

(** ** handleSort, handleSelectDocument, handleSelectAll *)

Definition handleSort (k : SortKey) (c : Component) : M unit :=
  let dir :=
    match key (sortConfig c) with
    | Some k' =>
        if SortKey_eqb k' k && Direction_eqb (direction (sortConfig c)) asc
        then desc else asc
    | None => asc
    end in
  setSortConfig {| key := Some k; direction := dir |}.

Definition handleSelectDocument (i : string) (c : Component) : M unit :=
  let newSelected := StrSet.copy (selectedDocuments c) in
  let newSelected :=
    if StrSet.has i newSelected then StrSet.delete i newSelected
    else StrSet.add i newSelected in
  setSelectedDocuments newSelected.

Definition handleSelectAll (c : Component) : M unit :=
  if StrSet.size (selectedDocuments c)
     =? Z.of_nat (List.length (filteredDocuments c))
  then setSelectedDocuments StrSet.empty
  else setSelectedDocuments (StrSet.of_array (map id (filteredDocuments c))).

(** ** handleDeleteSelected *)

(** The callback of [Array.from(selectedDocuments).map]: [doc.fileHash]
    on the result of [documents.find], a [TypeError] when that is
    [undefined]. *)
Definition resolveFileHash (docs : list Document) (i : string) : M string :=
  match Array_find (fun d => String.eqb (id d) i) docs with
  | Some doc => ret (fileHash doc)
  | None => throw TypeError
  end.

Definition handleDeleteSelected {host : Host} (api : Server) (c : Component)
  : M unit :=
  if StrSet.size (selectedDocuments c) =? 0 then
    toast_error "No documents selected"
  else
    try_finally
      (try_catch
         (selectedFileHashes <-
            mapM (resolveFileHash (documents c))
                 (StrSet.to_array (selectedDocuments c)) ;;
          result <- await (CallDeleteDocuments selectedFileHashes)
                          (deleteDocuments api selectedFileHashes) ;;
          (if 0 <? total_deleted result then
             toast_success ("Delete Successfully - "
                            ++ Number_toString (total_deleted result)
                            ++ " files deleted")%string
           else toast_error "No files were deleted") ;;
          setSelectedDocuments StrSet.empty ;;
          loadDocuments api)
         (fun error =>
            console_error "Error deleting documents:" ;;
            toast_error "Delete Failed"))
      (setShowDeleteConfirm false).

(** A handler runs on the state of the render that created it: it reads
    the cells of [c] and its writes start from [c]. *)
Definition run {A} (handler : Component -> M A) (c : Component)
  : Completion A * Component * list Event :=
  handler c c.

Definition next {A} (handler : Component -> M A) (c : Component) : Component :=
  snd (fst (run handler c)).

Definition trace {A} (handler : Component -> M A) (c : Component)
  : list Event :=
  snd (run handler c).

Definition is_request (e : Event) : bool :=
  match e with
  | CallGetDocuments | CallDeleteDocuments _ => true
  | _ => false
  end.

Definition is_reload (e : Event) : bool :=
  match e with
  | CallGetDocuments => true
  | _ => false
  end.

(** ** A host for examples

    A host whose [new Date(string)] reads the date-only form
    [YYYY-MM-DD], the value of an [<input type="date">], as midnight UTC
    and gives an Invalid Date for every other string. *)

(** Days from 1970-01-01 to the civil date [y-m-d]. *)
Definition days_from_civil (y m d : Z) : Z :=
  let y' := if m <=? 2 then y - 1 else y in
  let era := y' / 400 in
  let yoe := y' - era * 400 in
  let doy := (153 * (if 2 <? m then m - 3 else m + 9) + 2) / 5 + d - 1 in
  let doe := yoe * 365 + yoe / 4 - yoe / 100 + doy in
  era * 146097 + doe - 719468.

Definition days_in_month (y m : Z) : Z :=
  if m =? 2 then
    (if ((y mod 4 =? 0) && negb (y mod 100 =? 0)) || (y mod 400 =? 0)
     then 29 else 28)
  else if (m =? 4) || (m =? 6) || (m =? 9) || (m =? 11) then 30
  else 31.

Definition parse_date_only (s : string) : Date :=
  let '(y, ny, s1) := read_digits s 0 0 in
  match s1 with
  | String "-"%char s2 =>
      let '(m, nm, s3) := read_digits s2 0 0 in
      match s3 with
      | String "-"%char s4 =>
          let '(d, nd, s5) := read_digits s4 0 0 in
          if (ny =? 4) && (nm =? 2) && (nd =? 2) && negb (truthy s5)
             && (1 <=? m) && (m <=? 12)
             && (1 <=? d) && (d <=? days_in_month y m)
          then Some (days_from_civil y m d * 86400000)
          else None
      | _ => None
      end
  | _ => None
  end.

Definition date_only_host : Host := {| Date_parse := parse_date_only |}.

(** ** Derived notions used by the statements *)

(** What the resolution of the selection to deletion keys completes
    with, on the state [c]. *)
Definition resolveSelection (c : Component) : Completion (list string) :=
  result_of (mapM (resolveFileHash (documents c))
                  (StrSet.to_array (selectedDocuments c))) c.

(** The identifiers of the visible rows. *)
Definition visibleIds (c : Component) : list string :=
  map id (filteredDocuments c).

(** Every visible row is selected. *)
Definition fullySelected (c : Component) : bool :=
  forallb (fun i => StrSet.has i (selectedDocuments c)) (visibleIds c).

(** A sequence of clicks on column headers. *)
Definition handleSorts (ks : list SortKey) (c : Component) : Component :=
  fold_left (fun s k => next (handleSort k) s) ks c.

(** The name a row is sorted and searched by. *)
Definition lowerName (d : Document) : string := toLowerCase (name d).

(** The state [c] with the sort configuration [cfg]. *)
Definition withSort (cfg : SortConfig) (c : Component) : Component :=
  state_of (setSortConfig cfg) c.

Definition byName (dir : Direction) : SortConfig :=
  {| key := Some key_name; direction := dir |}.

(** ** Example data *)

Definition doc_a : Document := {|
  id := "a-1.pdf"; name := "a.pdf"; storedFilename := "a-1.pdf";
  uploadDate := parse_date_only "2024-01-01";
  size := 1048576; fileHash := "hash-a" |}.

Definition doc_b : Document := {|
  id := "b-2.pdf"; name := "b.pdf"; storedFilename := "b-2.pdf";
  uploadDate := parse_date_only "2024-02-01";
  size := 2097152; fileHash := "hash-b" |}.

(** A row whose name differs from [doc_a]'s by case only. *)
Definition doc_A : Document := {|
  id := "A-3.pdf"; name := "A.pdf"; storedFilename := "A-3.pdf";
  uploadDate := parse_date_only "2024-03-01";
  size := 4096; fileHash := "hash-A" |}.

(** Two documents loaded, all filters off, nothing selected. *)
Definition two_loaded : Component := {|
  documents := [doc_a; doc_b];
  filteredDocuments := [doc_a; doc_b];
  loading := false;
  selectedDocuments := StrSet.empty;
  searchTerm := "";
  sortConfig := {| key := None; direction := asc |};
  showDeleteConfirm := false;
  sizeFilter := "";
  dateFilter := ""
|}.

Definition withSelection (sel : StrSet.t) (c : Component) : Component :=
  state_of (setSelectedDocuments sel) c.

Definition withShowDeleteConfirm (v : bool) (c : Component) : Component :=
  state_of (setShowDeleteConfirm v) c.

Definition withLoading (v : bool) (c : Component) : Component :=
  state_of (setLoading v) c.

Definition withFilters (search sz dt : string) (c : Component) : Component := {|
  documents := documents c;
  filteredDocuments := filteredDocuments c;
  loading := loading c;
  selectedDocuments := selectedDocuments c;
  searchTerm := search;
  sortConfig := sortConfig c;
  showDeleteConfirm := showDeleteConfirm c;
  sizeFilter := sz;
  dateFilter := dt |}.

(** The confirm dialog is open on a selection of [doc_a]. *)
Definition confirm_delete_a : Component :=
  withShowDeleteConfirm true (withSelection ["a-1.pdf"] two_loaded).

(** A backend whose every request fails. *)
Definition api_down : Server := {|
  getDocuments := Rejected;
  deleteDocuments := fun _ => Rejected |}.

(** A backend that deletes what it is asked to and lists [doc_b]'s file. *)
Definition raw_b : RawDocument := {|
  stored_filename := "b-2.pdf"; original_filename := "b.pdf";
  processed_time := None; uploaded_time := Some "2024-02-01";
  file_size := 2097152; file_hash := "hash-b" |}.

Definition api_ok : Server := {|
  getDocuments := Resolved {| pdfs := [raw_b] |};
  deleteDocuments := fun hashes =>
    Resolved {| total_deleted := Z.of_nat (List.length hashes) |} |}.

(** A backend that answers a delete with a count of zero. *)
Definition api_none_deleted : Server := {|
  getDocuments := Resolved {| pdfs := [raw_b] |};
  deleteDocuments := fun _ => Resolved {| total_deleted := 0 |} |}.

(** Only [doc_a] is visible; a filtered-out row is the one selected. *)
Definition hidden_selected : Component := {|
  documents := [doc_a; doc_b];
  filteredDocuments := [doc_a];
  loading := false;
  selectedDocuments := ["b-2.pdf"];
  searchTerm := "a";
  sortConfig := {| key := None; direction := asc |};
  showDeleteConfirm := false;
  sizeFilter := "";
  dateFilter := ""
|}.

(** Both rows visible, both selected. *)
Definition all_selected : Component :=
  withSelection ["a-1.pdf"; "b-2.pdf"] two_loaded.

(** The selection names a document that is not in the collection. *)
Definition stale_selection : Component :=
  withShowDeleteConfirm true (withSelection ["a-1.pdf"; "gone.pdf"] two_loaded).

(** [doc_A] and [doc_a] loaded. *)
Definition same_name_modulo_case : Component := {|
  documents := [doc_A; doc_a];
  filteredDocuments := [doc_A; doc_a];
  loading := false;
  selectedDocuments := StrSet.empty;
  searchTerm := "";
  sortConfig := {| key := None; direction := asc |};
  showDeleteConfirm := false;
  sizeFilter := "";
  dateFilter := ""
|}.

(** ** What the render shows *)

Inductive Icon : Type := ChevronUp | ChevronDown.

(** A lucide icon element: which icon, with which [className]. *)
Record IconElement : Type := {
  icon : Icon;
  className : string
}.

Definition getSortIcon (k : SortKey) (c : Component) : IconElement :=
  match key (sortConfig c) with
  | Some k' =>
      if SortKey_eqb k' k then
        match direction (sortConfig c) with
        | asc => {| icon := ChevronUp; className := "h-4 w-4 text-blue-600" |}
        | desc =>
            {| icon := ChevronDown; className := "h-4 w-4 text-blue-600" |}
        end
      else {| icon := ChevronUp; className := "h-4 w-4 text-gray-400" |}
  | None => {| icon := ChevronUp; className := "h-4 w-4 text-gray-400" |}
  end.

(** The check mark of a row: [selectedDocuments.has(doc.id)]. *)
Definition rowChecked (c : Component) (doc : Document) : bool :=
  StrSet.has (id doc) (selectedDocuments c).

(** The check mark of the 'Select All' header. *)
Definition selectAllChecked (c : Component) : bool :=
  (StrSet.size (selectedDocuments c)
   =? Z.of_nat (List.length (filteredDocuments c)))
  && (0 <? Z.of_nat (List.length (filteredDocuments c))).

(** The [disabled] attribute of the 'Delete Selected' button. *)
Definition deleteDisabled (c : Component) : bool :=
  StrSet.size (selectedDocuments c) =? 0.

(** ** Further notions used by the statements *)

(** The three filter tests on one document, each passed when its control
    is not set (for the size: also when the threshold is not a number). *)
Definition passesFilters {host : Host} (c : Component) (d : Document) : bool :=
  (negb (truthy (searchTerm c))
   || includes (toLowerCase (name d)) (toLowerCase (searchTerm c)))
  && (negb (truthy (sizeFilter c))
      || isNaN (parseFloat (sizeFilter c))
      || Number_ge (docSizeMB d) (parseFloat (sizeFilter c)))
  && (negb (truthy (dateFilter c))
      || Date_ge (uploadDate d) (Date_parse (dateFilter c))).

(** Every selected identifier is the [id] of a loaded document. *)
Definition selectionLoaded (c : Component) : Prop :=
  forall i, In i (selectedDocuments c) ->
            exists d, In d (documents c) /\ id d = i.

(** Every visible row is a loaded document. *)
Definition viewLoaded (c : Component) : Prop :=
  forall d, In d (filteredDocuments c) -> In d (documents c).


(** Every character of [s] is an ASCII character. *)
Fixpoint isAscii (s : string) : bool :=
  match s with
  | String ch s' => (nat_of_ascii ch <? 128)%nat && isAscii s'
  | EmptyString => true
  end.

(** The sort by key [k] compares consistently on the loaded documents:
    always for names and sizes, for upload dates when none is an Invalid
    Date. *)
Definition comparesConsistently (k : SortKey) (c : Component) : Prop :=
  k = key_uploadDate -> Forall (fun d => uploadDate d <> None) (documents c).

Definition bySize (dir : Direction) : SortConfig :=
  {| key := Some key_size; direction := dir |}.

Definition byUploadDate (dir : Direction) : SortConfig :=
  {| key := Some key_uploadDate; direction := dir |}.

(** A file the backend stored without a name of its own. *)
Definition raw_unnamed : RawDocument := {|
  stored_filename := ""; original_filename := "c.pdf";
  processed_time := Some "2024-03-05"; uploaded_time := None;
  file_size := 0; file_hash := "hash-c" |}.

(** A second document of the size of [doc_a]. *)
Definition doc_d : Document := {|
  id := "d-4.pdf"; name := "d.pdf"; storedFilename := "d-4.pdf";
  uploadDate := parse_date_only "2023-12-24";
  size := 1048576; fileHash := "hash-d" |}.

(** [doc_b], [doc_a] and [doc_d] loaded and shown, in this order. *)
Definition three_loaded : Component := {|
  documents := [doc_b; doc_a; doc_d];
  filteredDocuments := [doc_b; doc_a; doc_d];
  loading := false;
  selectedDocuments := StrSet.empty;
  searchTerm := "";
  sortConfig := {| key := None; direction := asc |};
  showDeleteConfirm := false;
  sizeFilter := "";
  dateFilter := ""
|}.

End ManageSource.

(* ================================================================== *)
(** * Facts about the built-ins                                        *)
(* ================================================================== *)

Module JSFacts.

Import JS.

(** ** Order on strings *)

Definition String_le (a b : string) : Prop := String.compare a b <> Gt.

Lemma String_compare_trans_lt (a b c : string) :
  String.compare a b = Lt -> String.compare b c = Lt -> String.compare a c = Lt.
Proof.
  intros Hab Hbc.
  apply String_as_OT.cmp_lt. apply String_as_OT.cmp_lt in Hab, Hbc.
  exact (String_as_OT.lt_trans _ _ _ Hab Hbc).
Qed.

Lemma String_compare_gt_lt (a b : string) :
  String.compare a b = Gt <-> String.compare b a = Lt.
Proof.
  rewrite (String.compare_antisym b a).
  destruct (String.compare a b); simpl; split; congruence.
Qed.

Lemma String_le_trans (a b c : string) :
  String_le a b -> String_le b c -> String_le a c.
Proof.
  unfold String_le. intros Hab Hbc Hac.
  apply String_compare_gt_lt in Hac.
  destruct (String.compare a b) eqn:Eab; [ | | congruence].
  - apply String.compare_eq_iff in Eab. subst b.
    apply Hbc. now apply String_compare_gt_lt.
  - destruct (String.compare b c) eqn:Ebc; [ | | congruence].
    + apply String.compare_eq_iff in Ebc. subst c.
      apply String_compare_gt_lt in Hac. congruence.
    + pose proof (String_compare_trans_lt _ _ _ Eab Ebc) as Hlt.
      apply String_compare_gt_lt in Hac. congruence.
Qed.

Lemma String_le_antisym (a b : string) :
  String_le a b -> String_le b a -> a = b.
Proof.
  unfold String_le. intros Hab Hba.
  destruct (String.compare a b) eqn:E.
  - now apply String.compare_eq_iff.
  - apply String_compare_gt_lt in E. congruence.
  - congruence.
Qed.

(** ** The stable sort *)

Section StableSort.

Context {A : Type}.
Variable cmp : A -> A -> Z.

Lemma sort_insert_perm (x : A) (l : list A) :
  Permutation (sort_insert cmp x l) (x :: l).
Proof.
  induction l as [|y l IH]; simpl.
  - apply Permutation_refl.
  - destruct (0 <? cmp x y).
    + eapply perm_trans; [apply perm_skip, IH | apply perm_swap].
    + apply Permutation_refl.
Qed.

Lemma Array_sort_perm (l : list A) : Permutation (Array_sort cmp l) l.
Proof.
  induction l as [|x l IH]; simpl.
  - constructor.
  - eapply perm_trans; [apply sort_insert_perm | now apply perm_skip].
Qed.

(** The comparator agrees with a transitive relation [R]: [x] stays in
    front of [y] only if [R x y], and moves behind it only if [R y x]. *)
Variable R : A -> A -> Prop.
Hypothesis R_trans : forall x y z, R x y -> R y z -> R x z.
Hypothesis cmp_keep : forall x y, (0 <? cmp x y) = false -> R x y.
Hypothesis cmp_move : forall x y, (0 <? cmp x y) = true -> R y x.

Lemma sort_insert_sorted (x : A) (l : list A) :
  StronglySorted R l -> StronglySorted R (sort_insert cmp x l).
Proof.
  induction l as [|y l IH]; simpl; intros Hs.
  - repeat constructor.
  - inversion Hs as [|? ? Hl Hy]; subst.
    destruct (0 <? cmp x y) eqn:E.
    + constructor; [now apply IH|].
      apply Forall_forall. intros z Hz.
      apply (Permutation_in _ (sort_insert_perm x l)) in Hz.
      destruct Hz as [<-|Hz]; [now apply cmp_move|].
      rewrite Forall_forall in Hy. now apply Hy.
    + constructor; [assumption|].
      constructor; [now apply cmp_keep|].
      apply Forall_forall. intros z Hz.
      rewrite Forall_forall in Hy.
      apply R_trans with y; [now apply cmp_keep | now apply Hy].
Qed.

Lemma Array_sort_sorted (l : list A) : StronglySorted R (Array_sort cmp l).
Proof.
  induction l as [|x l IH]; simpl.
  - constructor.
  - now apply sort_insert_sorted.
Qed.

End StableSort.

Lemma StronglySorted_snoc {A} (R : A -> A -> Prop) (l : list A) (x : A) :
  StronglySorted R l -> Forall (fun y => R y x) l ->
  StronglySorted R (l ++ [x]).
Proof.
  induction l as [|y l IH]; simpl; intros Hs Hf.
  - repeat constructor.
  - inversion Hs as [|? ? Hl Hy]; subst.
    inversion Hf as [|? ? Hyx Hf']; subst.
    constructor; [now apply IH|].
    apply Forall_app. split; [assumption | now constructor].
Qed.

Section SortedLists.

Context {A : Type}.
Variable R : A -> A -> Prop.

Lemma StronglySorted_rev (l : list A) :
  StronglySorted R l -> StronglySorted (fun a b => R b a) (rev l).
Proof.
  induction 1 as [|x l Hl IH Hx]; simpl.
  - constructor.
  - apply StronglySorted_snoc; [assumption|].
    apply Forall_forall. intros y Hy. apply in_rev in Hy.
    rewrite Forall_forall in Hx. now apply Hx.
Qed.

(** Two sorted arrangements of the same elements coincide when [R] is
    antisymmetric on them. *)
Lemma StronglySorted_unique (l1 l2 : list A) :
  Permutation l1 l2 ->
  StronglySorted R l1 -> StronglySorted R l2 ->
  (forall a b, In a l1 -> In b l1 -> R a b -> R b a -> a = b) ->
  l1 = l2.
Proof.
  revert l2. induction l1 as [|a l1 IH]; intros l2 Hp H1 H2 Hanti.
  - apply Permutation_nil in Hp. now subst.
  - destruct l2 as [|b l2].
    { apply Permutation_sym, Permutation_nil in Hp. discriminate. }
    inversion H1 as [|? ? Hs1 Ha]; subst.
    inversion H2 as [|? ? Hs2 Hb]; subst.
    rewrite Forall_forall in Ha, Hb.
    assert (Hab : a = b).
    { assert (Ia : In a (b :: l2))
        by (apply (Permutation_in _ Hp); now left).
      assert (Ib : In b (a :: l1))
        by (apply (Permutation_in _ (Permutation_sym Hp)); now left).
      destruct Ia as [->|Ia]; [reflexivity|].
      destruct Ib as [->|Ib]; [reflexivity|].
      apply Hanti; [now left | now right | now apply Ha | now apply Hb]. }
    subst b. f_equal.
    apply IH; [now apply Permutation_cons_inv with a | assumption | assumption |].
    intros x y Hx Hy. apply Hanti; now right.
Qed.

End SortedLists.

Lemma NoDup_map_inj {A B} (f : A -> B) (l : list A) (a b : A) :
  NoDup (map f l) -> In a l -> In b l -> f a = f b -> a = b.
Proof.
  induction l as [|x l IH]; simpl; intros Hnd Ha Hb Hf; [contradiction|].
  inversion Hnd as [|? ? Hx Hnd']; subst.
  destruct Ha as [->|Ha], Hb as [->|Hb]; auto.
  - exfalso. apply Hx. rewrite Hf. now apply in_map.
  - exfalso. apply Hx. rewrite <- Hf. now apply in_map.
Qed.

Lemma NoDup_map_filter {A B} (key : A -> B) (keep : A -> bool)
  (rows : list A) (Hnd : NoDup (map key rows)) :
  NoDup (map key (filter keep rows)).
Proof.
  induction rows as [|r rows IH]; simpl in *; [constructor|].
  inversion Hnd as [|? ? Hr Hnd']; subst.
  destruct (keep r); simpl; [|now apply IH].
  constructor; [|now apply IH].
  intros Hin. apply Hr. apply in_map_iff in Hin.
  destruct Hin as [y [Hy Hin]]. apply filter_In in Hin.
  apply in_map_iff. exists y. tauto.
Qed.

(** ** Set *)

Lemma StrSet_has_In (x : string) (s : StrSet.t) :
  StrSet.has x s = true <-> In x s.
Proof.
  unfold StrSet.has. rewrite existsb_exists. split.
  - intros [y [Hy E]]. apply String.eqb_eq in E. now subst.
  - intros H. exists x. split; [assumption | apply String.eqb_refl].
Qed.

Lemma StrSet_add_In (x y : string) (s : StrSet.t) :
  In y (StrSet.add x s) <-> y = x \/ In y s.
Proof.
  unfold StrSet.add. destruct (StrSet.has x s) eqn:E.
  - apply StrSet_has_In in E. split; [tauto|]. intros [->|H]; assumption.
  - rewrite in_app_iff. simpl. split; intros H; intuition (subst; auto).
Qed.

Lemma StrSet_add_NoDup (x : string) (s : StrSet.t) :
  NoDup s -> NoDup (StrSet.add x s).
Proof.
  intros Hnd. unfold StrSet.add. destruct (StrSet.has x s) eqn:E; [assumption|].
  apply NoDup_app; [assumption | repeat constructor; simpl; tauto |].
  intros y Hy [<-|[]]. apply StrSet_has_In in Hy. congruence.
Qed.

Lemma fold_add_In (arr : list string) (s : StrSet.t) (y : string) :
  In y (fold_left (fun s x => StrSet.add x s) arr s) <-> In y s \/ In y arr.
Proof.
  revert s. induction arr as [|x arr IH]; simpl; intros s.
  - tauto.
  - rewrite IH, StrSet_add_In. intuition (subst; auto).
Qed.

Lemma fold_add_NoDup (arr : list string) (s : StrSet.t) :
  NoDup s -> NoDup (fold_left (fun s x => StrSet.add x s) arr s).
Proof.
  revert s. induction arr as [|x arr IH]; simpl; intros s Hs; [assumption|].
  apply IH. now apply StrSet_add_NoDup.
Qed.

(** [new Set(arr)] holds exactly the values of [arr]. *)
Lemma StrSet_of_array_In (arr : list string) (y : string) :
  In y (StrSet.of_array arr) <-> In y arr.
Proof.
  unfold StrSet.of_array. rewrite fold_add_In. simpl. tauto.
Qed.

Lemma StrSet_of_array_NoDup (arr : list string) : NoDup (StrSet.of_array arr).
Proof. apply fold_add_NoDup. constructor. Qed.

Lemma fold_add_distinct (arr : list string) (s : StrSet.t) :
  NoDup (s ++ arr) -> fold_left (fun s x => StrSet.add x s) arr s = s ++ arr.
Proof.
  revert s. induction arr as [|x arr IH]; cbn [fold_left]; intros s Hnd.
  - now rewrite app_nil_r.
  - assert (E : StrSet.has x s = false).
    { destruct (StrSet.has x s) eqn:E; [|reflexivity].
      apply StrSet_has_In in E. apply NoDup_remove_2 in Hnd.
      exfalso. apply Hnd. apply in_or_app. now left. }
    unfold StrSet.add. rewrite E.
    replace (s ++ x :: arr) with ((s ++ [x]) ++ arr) in *
      by (now rewrite <- app_assoc).
    now apply IH.
Qed.

(** On pairwise distinct values [new Set(arr)] is [arr] itself. *)
Lemma StrSet_of_array_distinct (arr : list string) :
  NoDup arr -> StrSet.of_array arr = arr.
Proof. intros H. unfold StrSet.of_array. now rewrite fold_add_distinct. Qed.

End JSFacts.

(* ================================================================== *)
(** * Properties of the component                                      *)
(* ================================================================== *)

Module ManageSourceSpec.

Import JS JSFacts ManageSource.

Local Open Scope string_scope.
Local Open Scope Z_scope.
Local Open Scope list_scope.
Local Open Scope js_scope.

(** ** How the handlers run *)

(** Resolving identifiers neither writes a cell nor emits an event, and
    its completion does not depend on the state it runs on. *)
Lemma mapM_resolve_run (docs : list Document) (l : list string)
  (s s' : Component) :
  mapM (resolveFileHash docs) l s
  = (result_of (mapM (resolveFileHash docs) l) s', s, []).
Proof.
  revert s s'. induction l as [|i l IH]; intros s s'; [reflexivity|].
  unfold result_of in *. cbn [mapM]. unfold bind, resolveFileHash at 1 3.
  destruct (Array_find (fun d => String.eqb (id d) i) docs) as [d|];
    [|reflexivity].
  unfold ret at 1 3. rewrite (IH s s), (IH s' s).
  destruct (fst (fst (mapM (resolveFileHash docs) l s))); reflexivity.
Qed.

Lemma resolveSelection_run (c s : Component) :
  mapM (resolveFileHash (documents c))
       (StrSet.to_array (selectedDocuments c)) s
  = (resolveSelection c, s, []).
Proof. unfold resolveSelection. apply mapM_resolve_run. Qed.

(** The two ways [loadDocuments] completes. *)
Lemma loadDocuments_rejected {host : Host} (api : Server) (s : Component) :
  getDocuments api = Rejected ->
  loadDocuments api s
  = (Normal tt, withLoading false s,
     [CallGetDocuments; ConsoleError "Error loading documents:";
      ToastError "Failed to load documents"]).
Proof.
  intros E. unfold loadDocuments, try_finally, try_catch, bind, await.
  rewrite E. reflexivity.
Qed.

Lemma loadDocuments_resolved {host : Host} (api : Server) (s : Component)
  (response : ListResponse) :
  getDocuments api = Resolved response ->
  loadDocuments api s
  = (Normal tt,
     withLoading false
       (state_of (setDocuments (mapi_from processDoc 0 (pdfs response))) s),
     [CallGetDocuments]).
Proof.
  intros E. unfold loadDocuments, try_finally, try_catch, bind, await.
  rewrite E. reflexivity.
Qed.

(** [loadDocuments] issues its request once, whatever the answer, and
    leaves the selection as it is. *)
Lemma loadDocuments_one_request {host : Host} (api : Server) (s : Component) :
  List.length (filter is_reload (trace_of (loadDocuments api) s)) = 1%nat
  /\ selectedDocuments (state_of (loadDocuments api) s) = selectedDocuments s
  /\ result_of (loadDocuments api) s = Normal tt.
Proof.
  unfold trace_of, state_of, result_of.
  destruct (getDocuments api) as [response|] eqn:E.
  - rewrite (loadDocuments_resolved api s response E). repeat split.
  - rewrite (loadDocuments_rejected api s E). repeat split.
Qed.

(** ** Loading *)

(** C8: when [getDocuments] fails, [loadDocuments] shows the toast
    'Failed to load documents' and [documents] stays what it was; the only
    cell written is [loading], back to [false]. *)
Theorem load_failure_keeps_documents {host : Host} (api : Server) (s : Component) :
  getDocuments api = Rejected ->
  In (ToastError "Failed to load documents") (trace_of (loadDocuments api) s)
  /\ documents (state_of (loadDocuments api) s) = documents s
  /\ state_of (loadDocuments api) s = withLoading false s
  /\ result_of (loadDocuments api) s = Normal tt.
Proof.
  intros E. unfold trace_of, state_of, result_of.
  rewrite (loadDocuments_rejected api s E). simpl.
  repeat split; auto.
Qed.

Lemma load_failure_keeps_documents_witness :
  getDocuments api_down = Rejected
  /\ documents (state_of (loadDocuments (host := date_only_host) api_down)
                         two_loaded)
     = [doc_a; doc_b].
Proof.
  split; [reflexivity|].
  exact (proj1 (proj2 (load_failure_keeps_documents
                         (host := date_only_host) api_down two_loaded
                         eq_refl))).
Defined.

(** The first load: the mount effect runs [loadDocuments] on the initial
    state, and the filter effect then shows what was loaded.  A file
    without a stored name gets its position as identifier. *)
Example first_load :
  state_of (loadDocuments (host := date_only_host) api_ok) initial
  = withLoading false (state_of (setDocuments [doc_b]) initial)
  /\ filteredDocuments
       (next (filterAndSortDocuments (host := date_only_host))
             (state_of (loadDocuments (host := date_only_host) api_ok)
                       initial))
     = [doc_b]
  /\ id (processDoc (host := date_only_host)
            {| stored_filename := ""; original_filename := "c.pdf";
               processed_time := Some "2024-03-05"; uploaded_time := None;
               file_size := 0; file_hash := "hash-c" |} 1)
     = "doc-1".
Proof. repeat split. Qed.

(** ** Sorting state *)

Lemma handleSort_next (k : SortKey) (c : Component) :
  sortConfig (next (handleSort k) c)
  = {| key := Some k;
       direction :=
         match key (sortConfig c) with
         | Some k' =>
             if SortKey_eqb k' k
                && Direction_eqb (direction (sortConfig c)) asc
             then desc else asc
         | None => asc
         end |}.
Proof. reflexivity. Qed.

Lemma SortKey_eqb_eq (a b : SortKey) : SortKey_eqb a b = true <-> a = b.
Proof. destruct a, b; simpl; split; congruence. Qed.

Lemma handleSorts_key (ks : list SortKey) (c : Component) :
  key (sortConfig c) <> None -> key (sortConfig (handleSorts ks c)) <> None.
Proof.
  revert c. induction ks as [|k ks IH]; intros c Hc; [assumption|].
  unfold handleSorts in *. cbn [fold_left]. apply IH.
  rewrite handleSort_next. simpl. discriminate.
Qed.

(** C10: [handleSort k] makes [k] the sort key; the direction becomes
    descending exactly when the state before had key [k] with direction
    ascending, and ascending otherwise.  Hence a state with a sort key
    keeps having one under every sequence of [handleSort] calls. *)
Theorem handleSort_toggles (k : SortKey) (c : Component) :
  key (sortConfig (next (handleSort k) c)) = Some k
  /\ (direction (sortConfig (next (handleSort k) c)) = desc
      <-> key (sortConfig c) = Some k /\ direction (sortConfig c) = asc)
  /\ (direction (sortConfig (next (handleSort k) c)) = asc
      <-> ~ (key (sortConfig c) = Some k /\ direction (sortConfig c) = asc))
  /\ (forall ks, key (sortConfig (handleSorts ks (next (handleSort k) c)))
                 <> None)
  /\ (forall ks c', key (sortConfig c') <> None ->
                    key (sortConfig (handleSorts ks c')) <> None).
Proof.
  rewrite handleSort_next. cbn [key direction].
  split; [reflexivity|].
  assert (D : (match key (sortConfig c) with
               | Some k' =>
                   if SortKey_eqb k' k
                      && Direction_eqb (direction (sortConfig c)) asc
                   then desc else asc
               | None => asc
               end = desc)
              <-> key (sortConfig c) = Some k /\ direction (sortConfig c) = asc).
  { destruct (key (sortConfig c)) as [k'|].
    - destruct (SortKey_eqb k' k) eqn:Ek; simpl.
      + apply SortKey_eqb_eq in Ek. subst k'.
        destruct (direction (sortConfig c)); simpl; split;
          try congruence; tauto || (intros [_ ?]; congruence).
      + split; [discriminate|]. intros [E _]. injection E as ->.
        destruct k; discriminate.
    - split; [discriminate | intros [? _]; discriminate]. }
  split; [exact D|].
  split.
  - rewrite <- D.
    destruct (match key (sortConfig c) with
              | Some k' => _ | None => asc end); split; congruence.
  - split.
    + intros ks. apply handleSorts_key. rewrite handleSort_next. discriminate.
    + intros ks c'. apply handleSorts_key.
Qed.

Lemma handleSort_toggles_witness :
  key (sortConfig (withSort (byName desc) two_loaded)) <> None
  /\ key (sortConfig
            (handleSorts [key_name; key_size; key_size; key_uploadDate]
                         (withSort (byName desc) two_loaded)))
     <> None.
Proof.
  split; [discriminate|].
  apply (proj2 (proj2 (proj2 (proj2
           (handleSort_toggles key_name two_loaded))))).
  discriminate.
Defined.

(** ** The delete workflow *)

(** C5: with nothing selected, [handleDeleteSelected] shows the toast
    'No documents selected' and does nothing else: no request is issued
    and no cell is written, so the selection and the collection stay. *)
Theorem delete_without_selection {host : Host} (api : Server) (c : Component) :
  StrSet.size (selectedDocuments c) = 0 ->
  trace (handleDeleteSelected api) c = [ToastError "No documents selected"]
  /\ existsb is_request (trace (handleDeleteSelected api) c) = false
  /\ next (handleDeleteSelected api) c = c
  /\ selectedDocuments (next (handleDeleteSelected api) c)
     = selectedDocuments c
  /\ documents (next (handleDeleteSelected api) c) = documents c.
Proof.
  intros E. unfold trace, next, run, handleDeleteSelected.
  rewrite E. simpl. repeat split.
Qed.

Lemma delete_without_selection_witness :
  StrSet.size (selectedDocuments two_loaded) = 0
  /\ trace (handleDeleteSelected (host := date_only_host) api_ok) two_loaded
     = [ToastError "No documents selected"].
Proof.
  split; [reflexivity|].
  exact (proj1 (delete_without_selection
                  (host := date_only_host) api_ok two_loaded eq_refl)).
Defined.

(** The run of [handleDeleteSelected] on a selection that resolves, when
    the request is rejected. *)
Lemma delete_rejected_run {host : Host} (api : Server) (c : Component)
  (hashes : list string) :
  StrSet.size (selectedDocuments c) <> 0 ->
  resolveSelection c = Normal hashes ->
  deleteDocuments api hashes = Rejected ->
  run (handleDeleteSelected api) c
  = (Normal tt, withShowDeleteConfirm false c,
     [CallDeleteDocuments hashes; ConsoleError "Error deleting documents:";
      ToastError "Delete Failed"]).
Proof.
  intros Hsel Hres Hdel. unfold run, handleDeleteSelected.
  apply Z.eqb_neq in Hsel. rewrite Hsel.
  unfold try_finally, try_catch, bind at 1.
  rewrite resolveSelection_run, Hres.
  unfold bind at 1, await. rewrite Hdel. reflexivity.
Qed.

(** The run of [handleDeleteSelected] on a selection that resolves, when
    the request is answered. *)
Lemma delete_resolved_run {host : Host} (api : Server) (c : Component)
  (hashes : list string) (result : DeleteResponse) :
  StrSet.size (selectedDocuments c) <> 0 ->
  resolveSelection c = Normal hashes ->
  deleteDocuments api hashes = Resolved result ->
  run (handleDeleteSelected api) c
  = (Normal tt,
     withShowDeleteConfirm false
       (state_of (loadDocuments api) (withSelection StrSet.empty c)),
     CallDeleteDocuments hashes
     :: (if 0 <? total_deleted result
         then ToastSuccess ("Delete Successfully - "
                            ++ Number_toString (total_deleted result)
                            ++ " files deleted")
         else ToastError "No files were deleted")
     :: trace_of (loadDocuments api) (withSelection StrSet.empty c)).
Proof.
  intros Hsel Hres Hdel. unfold run, handleDeleteSelected.
  apply Z.eqb_neq in Hsel. rewrite Hsel.
  unfold try_finally, try_catch, bind at 1.
  rewrite resolveSelection_run, Hres.
  unfold bind at 1, await. rewrite Hdel.
  destruct (loadDocuments_one_request api (withSelection StrSet.empty c))
    as (_ & _ & Hr).
  unfold result_of, state_of, trace_of in *.
  destruct (0 <? total_deleted result);
    unfold bind, toast_success, toast_error, emit, setSelectedDocuments,
      modify, withSelection, state_of in *; cbn [fst snd] in *;
    destruct (loadDocuments api _) as [[r s'] t']; cbn [fst snd] in *;
    subst r; unfold setShowDeleteConfirm, modify, withShowDeleteConfirm;
    cbn [fst snd app]; rewrite app_nil_r; reflexivity.
Qed.

(** C1, as the code has it: when the bulk delete request throws, the
    handler shows the toast 'Delete Failed', triggers no reload and closes
    the dialog; the selection and the collection are left as they were. *)
Theorem delete_request_throws {host : Host} (api : Server) (c : Component)
  (hashes : list string) :
  StrSet.size (selectedDocuments c) <> 0 ->
  resolveSelection c = Normal hashes ->
  deleteDocuments api hashes = Rejected ->
  trace (handleDeleteSelected api) c
  = [CallDeleteDocuments hashes; ConsoleError "Error deleting documents:";
     ToastError "Delete Failed"]
  /\ filter is_reload (trace (handleDeleteSelected api) c) = []
  /\ selectedDocuments (next (handleDeleteSelected api) c)
     = selectedDocuments c
  /\ documents (next (handleDeleteSelected api) c) = documents c
  /\ showDeleteConfirm (next (handleDeleteSelected api) c) = false.
Proof.
  intros Hsel Hres Hdel. unfold trace, next.
  rewrite (delete_rejected_run api c hashes Hsel Hres Hdel).
  repeat split.
Qed.

Lemma delete_request_throws_witness :
  StrSet.size (selectedDocuments confirm_delete_a) <> 0
  /\ resolveSelection confirm_delete_a = Normal ["hash-a"]
  /\ deleteDocuments api_down ["hash-a"] = Rejected
  /\ selectedDocuments
       (next (handleDeleteSelected (host := date_only_host) api_down)
             confirm_delete_a)
     = selectedDocuments confirm_delete_a.
Proof.
  assert (Hsel : StrSet.size (selectedDocuments confirm_delete_a) <> 0)
    by (vm_compute; discriminate).
  split; [exact Hsel|]. split; [reflexivity|]. split; [reflexivity|].
  exact (proj1 (proj2 (proj2
           (delete_request_throws (host := date_only_host) api_down
              confirm_delete_a ["hash-a"] Hsel eq_refl eq_refl)))).
Defined.

(** C1 as stated fails: here the request throws and the toast is shown,
    yet the selection still holds the document it held. *)
Lemma failed_delete_keeps_selection :
  deleteDocuments api_down ["hash-a"] = Rejected
  /\ trace (handleDeleteSelected (host := date_only_host) api_down)
           confirm_delete_a
     = [CallDeleteDocuments ["hash-a"];
        ConsoleError "Error deleting documents:"; ToastError "Delete Failed"]
  /\ selectedDocuments
       (next (handleDeleteSelected (host := date_only_host) api_down)
             confirm_delete_a)
     = ["a-1.pdf"]
  /\ selectedDocuments
       (next (handleDeleteSelected (host := date_only_host) api_down)
             confirm_delete_a)
     <> StrSet.empty.
Proof.
  repeat split. vm_compute. discriminate.
Qed.

(** C4: when the bulk delete request resolves, a count above zero gives
    the success toast carrying the count and a count of zero gives a
    failure toast; either way the selection is emptied and the collection
    is requested again exactly once. *)
Theorem delete_request_resolves {host : Host} (api : Server) (c : Component)
  (hashes : list string) (result : DeleteResponse) :
  StrSet.size (selectedDocuments c) <> 0 ->
  resolveSelection c = Normal hashes ->
  deleteDocuments api hashes = Resolved result ->
  (0 < total_deleted result ->
   In (ToastSuccess ("Delete Successfully - "
                     ++ Number_toString (total_deleted result)
                     ++ " files deleted"))
      (trace (handleDeleteSelected api) c))
  /\ (total_deleted result = 0 ->
      In (ToastError "No files were deleted")
         (trace (handleDeleteSelected api) c))
  /\ selectedDocuments (next (handleDeleteSelected api) c) = StrSet.empty
  /\ List.length (filter is_reload (trace (handleDeleteSelected api) c))
     = 1%nat.
Proof.
  intros Hsel Hres Hdel. unfold trace, next.
  rewrite (delete_resolved_run api c hashes result Hsel Hres Hdel).
  destruct (loadDocuments_one_request api (withSelection StrSet.empty c))
    as (Hone & Hkeep & _).
  cbn [fst snd]. repeat split.
  - intros Hpos. apply Z.ltb_lt in Hpos. rewrite Hpos. right. now left.
  - intros ->. right. now left.
  - unfold withShowDeleteConfirm, state_of at 1. cbn [fst snd].
    unfold setShowDeleteConfirm, modify. cbn [fst snd selectedDocuments].
    exact Hkeep.
  - cbn [filter is_reload].
    destruct (0 <? total_deleted result); exact Hone.
Qed.

Lemma delete_request_resolves_witness :
  StrSet.size (selectedDocuments confirm_delete_a) <> 0
  /\ resolveSelection confirm_delete_a = Normal ["hash-a"]
  /\ deleteDocuments api_ok ["hash-a"] = Resolved {| total_deleted := 1 |}
  /\ In (ToastSuccess "Delete Successfully - 1 files deleted")
        (trace (handleDeleteSelected (host := date_only_host) api_ok)
               confirm_delete_a).
Proof.
  assert (Hsel : StrSet.size (selectedDocuments confirm_delete_a) <> 0)
    by (vm_compute; discriminate).
  split; [exact Hsel|]. split; [reflexivity|]. split; [reflexivity|].
  apply (proj1 (delete_request_resolves (host := date_only_host) api_ok
                  confirm_delete_a ["hash-a"] {| total_deleted := 1 |}
                  Hsel eq_refl eq_refl)).
  reflexivity.
Defined.

(** A count of zero on the example backend: failure toast, empty
    selection, one reload. *)
Example delete_none_deleted :
  trace (handleDeleteSelected (host := date_only_host) api_none_deleted)
        confirm_delete_a
  = [CallDeleteDocuments ["hash-a"]; ToastError "No files were deleted";
     CallGetDocuments]
  /\ selectedDocuments
       (next (handleDeleteSelected (host := date_only_host) api_none_deleted)
             confirm_delete_a)
     = StrSet.empty.
Proof. split; reflexivity. Qed.

(** ** Resolving the selection to deletion keys *)

Lemma resolve_cons (docs : list Document) (i : string) (l : list string)
  (s : Component) :
  result_of (mapM (resolveFileHash docs) (i :: l)) s
  = match Array_find (fun d => String.eqb (id d) i) docs with
    | Some doc =>
        match result_of (mapM (resolveFileHash docs) l) s with
        | Normal hs => Normal (fileHash doc :: hs)
        | Throw e => Throw e
        end
    | None => Throw TypeError
    end.
Proof.
  unfold result_of. cbn [mapM]. unfold bind, resolveFileHash at 1.
  destruct (Array_find (fun d => String.eqb (id d) i) docs) as [d|];
    [|reflexivity].
  unfold ret at 1. rewrite (mapM_resolve_run docs l s s).
  unfold result_of.
  destruct (fst (fst (mapM (resolveFileHash docs) l s))); reflexivity.
Qed.

Lemma Array_find_id (docs : list Document) (i : string) (d : Document) :
  Array_find (fun d => String.eqb (id d) i) docs = Some d ->
  In d docs /\ id d = i.
Proof.
  intros E. apply find_some in E. destruct E as [Hin E].
  apply String.eqb_eq in E. tauto.
Qed.

Lemma Array_find_present (docs : list Document) (i : string) :
  (exists d, In d docs /\ id d = i) ->
  exists d, Array_find (fun d => String.eqb (id d) i) docs = Some d.
Proof.
  intros [d [Hin E]].
  destruct (Array_find (fun d => String.eqb (id d) i) docs) as [d'|] eqn:F.
  - now exists d'.
  - exfalso. pose proof (find_none _ _ F d Hin) as N. cbv beta in N.
    rewrite E, String.eqb_refl in N. discriminate.
Qed.

Lemma Array_find_absent (docs : list Document) (i : string) :
  (forall d, In d docs -> id d <> i) ->
  Array_find (fun d => String.eqb (id d) i) docs = None.
Proof.
  intros Habs.
  destruct (Array_find (fun d => String.eqb (id d) i) docs) as [d|] eqn:F;
    [|reflexivity].
  apply Array_find_id in F. destruct F as [Hin E]. now apply Habs in Hin.
Qed.

(** Every identifier present: the resolution completes normally, with
    the [fileHash] of the first document carrying each identifier. *)
Lemma resolve_total (docs : list Document) (l : list string) (s : Component) :
  Forall (fun i => exists d, In d docs /\ id d = i) l ->
  exists hashes,
    result_of (mapM (resolveFileHash docs) l) s = Normal hashes
    /\ Forall2 (fun i h =>
                  exists d, Array_find (fun d => String.eqb (id d) i) docs
                            = Some d
                            /\ h = fileHash d) l hashes.
Proof.
  induction 1 as [|i l Hi Hl IH].
  - exists []. split; [reflexivity | constructor].
  - destruct IH as [hs [Hr Hf]].
    destruct (Array_find_present docs i Hi) as [d Hd].
    exists (fileHash d :: hs). rewrite resolve_cons, Hd, Hr.
    split; [reflexivity|]. constructor; [now exists d | assumption].
Qed.

(** The resolution never completes by anything but a [TypeError]. *)
Lemma resolve_throw (docs : list Document) (l : list string) (s : Component)
  (e : Exn) :
  result_of (mapM (resolveFileHash docs) l) s = Throw e -> e = TypeError.
Proof.
  induction l as [|i l IH]; [discriminate|].
  rewrite resolve_cons.
  destruct (Array_find _ docs); [|congruence].
  destruct (result_of (mapM (resolveFileHash docs) l) s) as [hs|e'];
    [discriminate|].
  intros E. injection E as <-. now apply IH.
Qed.

(** One identifier absent: the resolution throws a [TypeError]. *)
Lemma resolve_absent (docs : list Document) (l : list string) (s : Component)
  (i : string) :
  In i l -> (forall d, In d docs -> id d <> i) ->
  result_of (mapM (resolveFileHash docs) l) s = Throw TypeError.
Proof.
  intros Hin Habs. induction l as [|j l IH]; [contradiction|].
  rewrite resolve_cons.
  destruct (Array_find (fun d => String.eqb (id d) j) docs) as [d|] eqn:F;
    [|reflexivity].
  destruct Hin as [->|Hin].
  - rewrite (Array_find_absent docs i Habs) in F. discriminate.
  - now rewrite (IH Hin).
Qed.

(** The run of [handleDeleteSelected] when the resolution throws. *)
Lemma delete_unresolved_run {host : Host} (api : Server) (c : Component)
  (e : Exn) :
  StrSet.size (selectedDocuments c) <> 0 ->
  resolveSelection c = Throw e ->
  run (handleDeleteSelected api) c
  = (Normal tt, withShowDeleteConfirm false c,
     [ConsoleError "Error deleting documents:"; ToastError "Delete Failed"]).
Proof.
  intros Hsel Hres. unfold run, handleDeleteSelected.
  apply Z.eqb_neq in Hsel. rewrite Hsel.
  unfold try_finally, try_catch, bind at 1.
  rewrite resolveSelection_run, Hres. reflexivity.
Qed.

(** C9, as the code has it: the confirm handler resolves the selection
    by an unguarded [find].  When every selected identifier is the [id] of
    a loaded document the resolution completes, each key being the
    [fileHash] of the document [find] returns for the identifier, which is
    the one document with that [id] when identifiers are unique.  When a
    selected identifier is the [id] of no loaded document the lookup
    throws a [TypeError] before any request is issued; the handler does
    not throw: its own [catch] logs the error and shows 'Delete Failed',
    and it completes normally with the dialog closed. *)
Theorem selection_resolution {host : Host} (api : Server) (c : Component) :
  (Forall (fun i => exists d, In d (documents c) /\ id d = i)
          (StrSet.to_array (selectedDocuments c)) ->
   exists hashes,
     resolveSelection c = Normal hashes
     /\ Forall2 (fun i h =>
                   exists d,
                     Array_find (fun d => String.eqb (id d) i) (documents c)
                     = Some d
                     /\ In d (documents c) /\ id d = i /\ h = fileHash d
                     /\ (NoDup (map id (documents c)) ->
                         forall d', In d' (documents c) -> id d' = i ->
                                    h = fileHash d'))
                 (StrSet.to_array (selectedDocuments c)) hashes)
  /\ (forall i,
        In i (StrSet.to_array (selectedDocuments c)) ->
        (forall d, In d (documents c) -> id d <> i) ->
        resolveSelection c = Throw TypeError
        /\ existsb is_request (trace (handleDeleteSelected api) c) = false
        /\ trace (handleDeleteSelected api) c
           = [ConsoleError "Error deleting documents:";
              ToastError "Delete Failed"]
        /\ fst (fst (run (handleDeleteSelected api) c)) = Normal tt
        /\ next (handleDeleteSelected api) c = withShowDeleteConfirm false c).
Proof.
  split.
  - intros Hall.
    destruct (resolve_total (documents c) _ c Hall) as [hashes [Hr Hf]].
    exists hashes. split; [exact Hr|].
    revert Hf. apply Forall2_impl. intros i h [d [Hd ->]].
    exists d. destruct (Array_find_id _ _ _ Hd) as [Hin Hid].
    repeat split; auto.
    intros Hnd d' Hin' Hid'. f_equal.
    apply (NoDup_map_inj id (documents c)); congruence.
  - intros i Hin Habs.
    assert (Hres : resolveSelection c = Throw TypeError)
      by (apply (resolve_absent _ _ _ i); assumption).
    assert (Hsel : StrSet.size (selectedDocuments c) <> 0).
    { unfold StrSet.size, StrSet.to_array in *.
      destruct (selectedDocuments c); [contradiction | discriminate]. }
    unfold trace, next. rewrite (delete_unresolved_run api c _ Hsel Hres).
    split; [exact Hres|]. repeat split.
Qed.

Lemma selection_resolution_witness :
  Forall (fun i => exists d, In d (documents confirm_delete_a) /\ id d = i)
         (StrSet.to_array (selectedDocuments confirm_delete_a))
  /\ (exists hashes, resolveSelection confirm_delete_a = Normal hashes)
  /\ In "gone.pdf" (StrSet.to_array (selectedDocuments stale_selection))
  /\ (forall d, In d (documents stale_selection) -> id d <> "gone.pdf")
  /\ existsb is_request
       (trace (handleDeleteSelected (host := date_only_host) api_ok)
              stale_selection)
     = false.
Proof.
  assert (Hall : Forall (fun i => exists d,
                           In d (documents confirm_delete_a) /\ id d = i)
                        (StrSet.to_array (selectedDocuments confirm_delete_a))).
  { repeat constructor. exists doc_a. split; [now left | reflexivity]. }
  assert (Hin : In "gone.pdf"
                   (StrSet.to_array (selectedDocuments stale_selection)))
    by (right; now left).
  assert (Habs : forall d, In d (documents stale_selection) ->
                           id d <> "gone.pdf").
  { intros d [<-|[<-|[]]]; discriminate. }
  split; [exact Hall|]. split.
  - destruct (proj1 (selection_resolution (host := date_only_host) api_ok
                       confirm_delete_a) Hall) as [hashes [Hr _]].
    now exists hashes.
  - split; [exact Hin|]. split; [exact Habs|].
    exact (proj1 (proj2 (proj2 (selection_resolution
                                  (host := date_only_host) api_ok
                                  stale_selection)
                                "gone.pdf" Hin Habs))).
Defined.

(** C9 as stated fails: with 'gone.pdf' selected and not loaded, the
    lookup throws, yet the handler does not: it completes normally, having
    shown 'Delete Failed'. *)
Lemma stale_selection_is_caught :
  In "gone.pdf" (StrSet.to_array (selectedDocuments stale_selection))
  /\ Array_find (fun d => String.eqb (id d) "gone.pdf")
                (documents stale_selection)
     = None
  /\ resolveSelection stale_selection = Throw TypeError
  /\ fst (fst (run (handleDeleteSelected (host := date_only_host) api_ok)
                   stale_selection))
     = Normal tt
  /\ fst (fst (run (handleDeleteSelected (host := date_only_host) api_ok)
                   stale_selection))
     <> Throw TypeError
  /\ trace (handleDeleteSelected (host := date_only_host) api_ok)
           stale_selection
     = [ConsoleError "Error deleting documents:"; ToastError "Delete Failed"].
Proof.
  split; [right; now left|].
  split; [reflexivity|]. split; [reflexivity|]. split; [reflexivity|].
  split; [vm_compute; discriminate | reflexivity].
Qed.

(** ** Selection *)

Lemma handleSelectAll_next (c : Component) :
  next handleSelectAll c
  = withSelection
      (if StrSet.size (selectedDocuments c)
          =? Z.of_nat (List.length (filteredDocuments c))
       then StrSet.empty
       else StrSet.of_array (visibleIds c))
      c.
Proof.
  unfold next, run, handleSelectAll, visibleIds.
  destruct (StrSet.size (selectedDocuments c)
            =? Z.of_nat (List.length (filteredDocuments c))); reflexivity.
Qed.

(** C2, as the code has it: [handleSelectAll] empties the selection when
    the number of selected identifiers equals the number of visible rows,
    and otherwise makes the selection the set of the visible identifiers;
    the visible rows are not touched.  Called twice on visible rows with
    pairwise distinct identifiers, it leaves the selection empty when the
    two numbers differed at the start, and equal to the set of visible
    identifiers when they were equal. *)
Theorem selectAll_by_size (c : Component) :
  selectedDocuments (next handleSelectAll c)
  = (if StrSet.size (selectedDocuments c)
        =? Z.of_nat (List.length (filteredDocuments c))
     then StrSet.empty
     else StrSet.of_array (visibleIds c))
  /\ (forall i, In i (StrSet.of_array (visibleIds c)) <-> In i (visibleIds c))
  /\ filteredDocuments (next handleSelectAll c) = filteredDocuments c
  /\ (NoDup (visibleIds c) ->
      selectedDocuments (next handleSelectAll (next handleSelectAll c))
      = (if StrSet.size (selectedDocuments c)
            =? Z.of_nat (List.length (filteredDocuments c))
         then StrSet.of_array (visibleIds c)
         else StrSet.empty)).
Proof.
  split; [now rewrite handleSelectAll_next|].
  split; [intros i; apply StrSet_of_array_In|].
  split; [now rewrite handleSelectAll_next|].
  intros Hnd. rewrite (handleSelectAll_next (next handleSelectAll c)).
  rewrite (handleSelectAll_next c).
  unfold withSelection, state_of, setSelectedDocuments, modify, visibleIds.
  cbn [fst snd selectedDocuments filteredDocuments].
  destruct (StrSet.size (selectedDocuments c)
            =? Z.of_nat (List.length (filteredDocuments c))) eqn:E.
  - cbn [StrSet.size StrSet.empty List.length].
    destruct (filteredDocuments c) as [|d l]; reflexivity.
  - unfold visibleIds in Hnd.
    rewrite (StrSet_of_array_distinct _ Hnd).
    unfold StrSet.size. rewrite length_map, Z.eqb_refl. reflexivity.
Qed.

Lemma selectAll_by_size_witness :
  NoDup (visibleIds two_loaded)
  /\ selectedDocuments (next handleSelectAll (next handleSelectAll two_loaded))
     = StrSet.empty.
Proof.
  assert (Hnd : NoDup (visibleIds two_loaded)).
  { repeat constructor; simpl; intuition discriminate. }
  split; [exact Hnd|].
  exact (proj2 (proj2 (proj2 (selectAll_by_size two_loaded))) Hnd).
Defined.

(** C2 as stated fails.  With the one visible row unselected and a hidden
    row selected, [handleSelectAll] empties the selection instead of
    selecting the visible row; with both visible rows selected, calling it
    twice gives the full selection back, not the empty one. *)
Lemma selectAll_compares_sizes_only :
  fullySelected hidden_selected = false
  /\ selectedDocuments (next handleSelectAll hidden_selected) = StrSet.empty
  /\ selectedDocuments (next handleSelectAll hidden_selected)
     <> StrSet.of_array (visibleIds hidden_selected)
  /\ fullySelected all_selected = true
  /\ filteredDocuments (next handleSelectAll all_selected)
     = filteredDocuments all_selected
  /\ selectedDocuments (next handleSelectAll (next handleSelectAll all_selected))
     = ["a-1.pdf"; "b-2.pdf"]
  /\ selectedDocuments (next handleSelectAll (next handleSelectAll all_selected))
     <> StrSet.empty.
Proof.
  split; [reflexivity|]. split; [reflexivity|].
  split; [vm_compute; discriminate|].
  split; [reflexivity|]. split; [reflexivity|]. split; [reflexivity|].
  vm_compute; discriminate.
Qed.

(** [handleSelectDocument] flips the membership of one identifier and of
    no other. *)
Lemma handleSelectDocument_flips (i j : string) (c : Component) :
  (StrSet.has i (selectedDocuments (next (handleSelectDocument i) c))
   = negb (StrSet.has i (selectedDocuments c)))
  /\ (j <> i ->
      In j (selectedDocuments (next (handleSelectDocument i) c))
      <-> In j (selectedDocuments c)).
Proof.
  unfold next, run, handleSelectDocument, StrSet.copy.
  cbn [fst snd]. unfold setSelectedDocuments, modify.
  cbn [fst snd selectedDocuments].
  destruct (StrSet.has i (selectedDocuments c)) eqn:E; cbn [negb]; split.
  - destruct (StrSet.has i (StrSet.delete i (selectedDocuments c))) eqn:F;
      [|reflexivity].
    apply StrSet_has_In in F. unfold StrSet.delete in F.
    apply filter_In in F. destruct F as [_ F].
    rewrite String.eqb_refl in F. discriminate.
  - intros Hj. unfold StrSet.delete. rewrite filter_In.
    split; [tauto|]. intros H. split; [assumption|].
    destruct (String.eqb i j) eqn:G; [|reflexivity].
    apply String.eqb_eq in G. congruence.
  - apply StrSet_has_In, StrSet_add_In. now left.
  - intros Hj. rewrite StrSet_add_In. tauto.
Qed.

(** ** The filters *)

Lemma truthy_iff (s : string) : truthy s = true <-> s <> "".
Proof. destruct s; simpl; split; congruence. Qed.

Lemma applySearchFilter_In (term : string) (l : list Document) (d : Document) :
  In d (applySearchFilter term l) ->
  In d l
  /\ (term <> "" ->
      includes (toLowerCase (name d)) (toLowerCase term) = true).
Proof.
  unfold applySearchFilter. destruct (truthy term) eqn:T.
  - rewrite filter_In. tauto.
  - intros Hin. split; [assumption|]. intros Hne.
    apply truthy_iff in Hne. congruence.
Qed.

Lemma applySizeFilter_In (sz : string) (l : list Document) (d : Document) :
  In d (applySizeFilter sz l) ->
  In d l
  /\ (sz <> "" -> isNaN (parseFloat sz) = false ->
      Number_ge (docSizeMB d) (parseFloat sz) = true).
Proof.
  unfold applySizeFilter. destruct (truthy sz) eqn:T.
  - destruct (isNaN (parseFloat sz)) eqn:N; cbn [negb].
    + intros Hin. split; [assumption | congruence].
    + rewrite filter_In. tauto.
  - intros Hin. split; [assumption|]. intros Hne.
    apply truthy_iff in Hne. congruence.
Qed.

(** An empty threshold switches the date filter off. *)
Lemma applyDateFilter_empty {host : Host} (l : list Document) :
  applyDateFilter "" l = l.
Proof. reflexivity. Qed.

(** A threshold that parses to an instant keeps exactly the documents
    uploaded at or after it, in their order. *)
Lemma applyDateFilter_valid {host : Host} (dt : string) (t : Z)
  (l : list Document) :
  dt <> "" -> Date_parse dt = Some t ->
  applyDateFilter dt l
  = filter (fun d => match uploadDate d with
                     | Some u => t <=? u
                     | None => false
                     end) l
  /\ (forall d, In d (applyDateFilter dt l)
                <-> In d l /\ exists u, uploadDate d = Some u /\ t <= u).
Proof.
  intros Hne Hp. apply truthy_iff in Hne.
  unfold applyDateFilter. rewrite Hne, Hp. split; [reflexivity|].
  intros d. rewrite filter_In. unfold Date_ge.
  destruct (uploadDate d) as [u|].
  - rewrite Z.leb_le. split.
    + intros [Hin Hle]. split; [assumption|]. now exists u.
    + intros [Hin [u' [E Hle]]]. injection E as <-. tauto.
  - split; [intros [_ F]; discriminate|].
    intros [_ [u [E _]]]. discriminate.
Qed.

(** A non-empty threshold that does not parse removes every document. *)
Lemma applyDateFilter_invalid {host : Host} (dt : string) (l : list Document) :
  dt <> "" -> Date_parse dt = None -> applyDateFilter dt l = [].
Proof.
  intros Hne Hp. apply truthy_iff in Hne.
  unfold applyDateFilter. rewrite Hne, Hp.
  induction l as [|d l IH]; [reflexivity|].
  cbn [filter]. unfold Date_ge at 1. destruct (uploadDate d); exact IH.
Qed.

Lemma applyDateFilter_In {host : Host} (dt : string) (l : list Document)
  (d : Document) :
  In d (applyDateFilter dt l) ->
  In d l
  /\ (dt <> "" -> Date_ge (uploadDate d) (Date_parse dt) = true).
Proof.
  unfold applyDateFilter. destruct (truthy dt) eqn:T.
  - rewrite filter_In. tauto.
  - intros Hin. split; [assumption|]. intros Hne.
    apply truthy_iff in Hne. congruence.
Qed.

Lemma applySorting_perm (cfg : SortConfig) (l : list Document) :
  Permutation (applySorting cfg l) l.
Proof.
  unfold applySorting. destruct (key cfg).
  - apply Array_sort_perm.
  - apply Permutation_refl.
Qed.



(** The function by itself, on a string the date control does not
    deliver: with the threshold 'not-a-date', which is not empty and
    parses to an Invalid Date, it removes both loaded documents. *)
Theorem invalid_date_threshold_hides_all :
  parse_date_only "not-a-date" = None
  /\ documents (withFilters "" "" "not-a-date" two_loaded) = [doc_a; doc_b]
  /\ applyDateFilter (host := date_only_host) "not-a-date" [doc_a; doc_b] = []
  /\ deriveView (host := date_only_host)
       (withFilters "" "" "not-a-date" two_loaded)
     = [].
Proof. repeat split. Qed.

(** The size filter, next to it, ignores a threshold that does not
    parse. *)
Example invalid_size_threshold_ignored :
  parseFloat "abc" = NaN
  /\ deriveView (host := date_only_host) (withFilters "" "abc" "" two_loaded)
     = [doc_a; doc_b].
Proof. split; reflexivity. Qed.

(** C6: every document of the view is a loaded document that passes
    each filter that is set: its lower-cased name includes the lower-cased
    search term, its size divided by 1048576 is at least the parsed
    minimum size, and its upload date is at or after the threshold date.
    For [a.pdf] of 1048576 bytes and [b.pdf] of 2097152 bytes and the
    minimum size '1.5' the view is [b.pdf] alone. *)
Theorem view_satisfies_filters :
  (forall (host : Host) (c : Component) (d : Document),
      In d (deriveView c) ->
      In d (documents c)
      /\ (searchTerm c <> "" ->
          includes (toLowerCase (name d)) (toLowerCase (searchTerm c)) = true)
      /\ (sizeFilter c <> "" -> isNaN (parseFloat (sizeFilter c)) = false ->
          Number_ge (docSizeMB d) (parseFloat (sizeFilter c)) = true)
      /\ (forall q, sizeFilter c <> "" ->
                    parseFloat (sizeFilter c) = Finite q ->
                    (q <= Qmake (size d) 1048576)%Q)
      /\ (dateFilter c <> "" ->
          Date_ge (uploadDate d) (Date_parse (dateFilter c)) = true))
  /\ name doc_a = "a.pdf" /\ size doc_a = 1048576
  /\ name doc_b = "b.pdf" /\ size doc_b = 2097152
  /\ deriveView (host := date_only_host) (withFilters "" "1.5" "" two_loaded)
     = [doc_b].
Proof.
  split; [|repeat split].
  intros host c d Hin. unfold deriveView in Hin.
  apply (Permutation_in _ (applySorting_perm _ _)) in Hin.
  apply applyDateFilter_In in Hin. destruct Hin as [Hin Hdate].
  apply applySizeFilter_In in Hin. destruct Hin as [Hin Hsize].
  apply applySearchFilter_In in Hin. destruct Hin as [Hin Hname].
  repeat split; try assumption.
  intros q Hne Hq. specialize (Hsize Hne). rewrite Hq in Hsize.
  specialize (Hsize eq_refl). unfold docSizeMB, Number_ge in Hsize.
  now apply Qle_bool_iff in Hsize.
Qed.

Lemma view_satisfies_filters_witness :
  In doc_b (deriveView (host := date_only_host)
                       (withFilters "" "1.5" "" two_loaded))
  /\ sizeFilter (withFilters "" "1.5" "" two_loaded) <> ""
  /\ parseFloat "1.5" = Finite (3 # 2)
  /\ (3 # 2 <= Qmake (size doc_b) 1048576)%Q.
Proof.
  assert (Hin : In doc_b (deriveView (host := date_only_host)
                            (withFilters "" "1.5" "" two_loaded)))
    by (now left).
  assert (Hne : sizeFilter (withFilters "" "1.5" "" two_loaded) <> "")
    by discriminate.
  split; [exact Hin|]. split; [exact Hne|]. split; [reflexivity|].
  exact (proj1 (proj2 (proj2 (proj2
           (proj1 view_satisfies_filters date_only_host
              (withFilters "" "1.5" "" two_loaded) doc_b Hin))))
           (3 # 2)%Q Hne eq_refl).
Defined.

(** ** Sorting by name *)

(** Ascending: the comparator keeps [x] in front of [y] only when the
    lower-cased name of [x] is at most that of [y]. *)
Lemma compare_name_asc (x y : Document) :
  ((0 <? compareDocs key_name asc x y) = false ->
   String_le (lowerName x) (lowerName y))
  /\ ((0 <? compareDocs key_name asc x y) = true ->
      String_le (lowerName y) (lowerName x)).
Proof.
  unfold compareDocs, String.ltb, String_le, lowerName.
  rewrite (String.compare_antisym (toLowerCase (name y))
                                  (toLowerCase (name x))).
  destruct (String.compare (toLowerCase (name x)) (toLowerCase (name y)));
    simpl; split; intros E; vm_compute in E; congruence.
Qed.

(** Descending: the same with the two names exchanged. *)
Lemma compare_name_desc (x y : Document) :
  ((0 <? compareDocs key_name desc x y) = false ->
   String_le (lowerName y) (lowerName x))
  /\ ((0 <? compareDocs key_name desc x y) = true ->
      String_le (lowerName x) (lowerName y)).
Proof.
  unfold compareDocs, String.ltb, String_le, lowerName.
  rewrite (String.compare_antisym (toLowerCase (name y))
                                  (toLowerCase (name x))).
  destruct (String.compare (toLowerCase (name x)) (toLowerCase (name y)));
    simpl; split; intros E; vm_compute in E; congruence.
Qed.

Lemma sort_name_asc_sorted (l : list Document) :
  StronglySorted (fun a b => String_le (lowerName a) (lowerName b))
                 (Array_sort (compareDocs key_name asc) l).
Proof.
  apply Array_sort_sorted.
  - intros x y z. apply String_le_trans.
  - intros x y. apply compare_name_asc.
  - intros x y. apply compare_name_asc.
Qed.

Lemma sort_name_desc_sorted (l : list Document) :
  StronglySorted (fun a b => String_le (lowerName b) (lowerName a))
                 (Array_sort (compareDocs key_name desc) l).
Proof.
  apply Array_sort_sorted.
  - intros x y z Hxy Hyz. exact (String_le_trans _ _ _ Hyz Hxy).
  - intros x y. apply compare_name_desc.
  - intros x y. apply compare_name_desc.
Qed.

(** On rows whose lower-cased names are pairwise distinct, the ascending
    sort reversed is the descending sort. *)
Lemma sort_name_rev (l : list Document) :
  NoDup (map lowerName l) ->
  rev (Array_sort (compareDocs key_name asc) l)
  = Array_sort (compareDocs key_name desc) l.
Proof.
  intros Hnd.
  apply (StronglySorted_unique
           (fun a b => String_le (lowerName b) (lowerName a))).
  - eapply perm_trans; [apply Permutation_sym, Permutation_rev|].
    eapply perm_trans; [apply Array_sort_perm|].
    apply Permutation_sym, Array_sort_perm.
  - apply (StronglySorted_rev
             (fun a b => String_le (lowerName a) (lowerName b))).
    apply sort_name_asc_sorted.
  - apply sort_name_desc_sorted.
  - intros a b Ha Hb Hab Hba.
    apply (NoDup_map_inj lowerName l); trivial.
    + apply in_rev in Ha. exact (Permutation_in _ (Array_sort_perm _ l) Ha).
    + apply in_rev in Hb. exact (Permutation_in _ (Array_sort_perm _ l) Hb).
    + now apply String_le_antisym.
Qed.

(** The filters do not look at the sort configuration. *)
Lemma deriveView_withSort {host : Host} (cfg : SortConfig) (c : Component) :
  deriveView (withSort cfg c)
  = applySorting cfg
      (applyDateFilter (dateFilter c)
         (applySizeFilter (sizeFilter c)
            (applySearchFilter (searchTerm c) (documents c)))).
Proof. reflexivity. Qed.

Lemma filters_keep_distinct {host : Host} (c : Component) :
  NoDup (map lowerName (documents c)) ->
  NoDup (map lowerName
           (applyDateFilter (dateFilter c)
              (applySizeFilter (sizeFilter c)
                 (applySearchFilter (searchTerm c) (documents c))))).
Proof.
  intros Hnd.
  unfold applyDateFilter, applySizeFilter, applySearchFilter.
  destruct (truthy (dateFilter c)); [apply NoDup_map_filter|];
    (destruct (truthy (sizeFilter c));
     [destruct (negb (isNaN (parseFloat (sizeFilter c))));
      [apply NoDup_map_filter|]|]);
    (destruct (truthy (searchTerm c)); [apply NoDup_map_filter|]);
    exact Hnd.
Qed.

(** C7, as the code has it: when the lower-cased names of the loaded
    documents are pairwise distinct, the view sorted by name ascending,
    reversed, is the view sorted by name descending. *)
Theorem name_sort_reverses {host : Host} (c : Component) :
  NoDup (map lowerName (documents c)) ->
  rev (deriveView (withSort (byName asc) c))
  = deriveView (withSort (byName desc) c).
Proof.
  intros Hnd. rewrite !deriveView_withSort.
  unfold applySorting, byName. cbn [key direction].
  apply sort_name_rev. now apply filters_keep_distinct.
Qed.

Lemma name_sort_reverses_witness :
  NoDup (map lowerName (documents two_loaded))
  /\ rev (deriveView (host := date_only_host) (withSort (byName asc) two_loaded))
     = [doc_b; doc_a]
  /\ rev (deriveView (host := date_only_host) (withSort (byName asc) two_loaded))
     = deriveView (host := date_only_host) (withSort (byName desc) two_loaded).
Proof.
  assert (Hnd : NoDup (map lowerName (documents two_loaded))).
  { repeat constructor; simpl; intuition discriminate. }
  split; [exact Hnd|]. split; [reflexivity|].
  exact (name_sort_reverses (host := date_only_host) two_loaded Hnd).
Defined.

(** C7 as stated fails: [A.pdf] and [a.pdf] are distinct names that the
    comparator takes for equal, so both directions keep the loaded order
    and the reversed ascending view is not the descending view. *)
Lemma name_sort_ties_on_case :
  NoDup (map name (documents same_name_modulo_case))
  /\ rev (deriveView (host := date_only_host)
                     (withSort (byName asc) same_name_modulo_case))
     = [doc_a; doc_A]
  /\ deriveView (host := date_only_host)
                (withSort (byName desc) same_name_modulo_case)
     = [doc_A; doc_a]
  /\ rev (deriveView (host := date_only_host)
                     (withSort (byName asc) same_name_modulo_case))
     <> deriveView (host := date_only_host)
                   (withSort (byName desc) same_name_modulo_case).
Proof.
  split.
  { repeat constructor; simpl; intuition discriminate. }
  split; [reflexivity|]. split; [reflexivity|].
  vm_compute. discriminate.
Qed.

End ManageSourceSpec.

(* ================================================================== *)
(** * Further properties of the component                              *)
(* ================================================================== *)

Module ManageSourceMore.

Import JS JSFacts ManageSource ManageSourceSpec.

Local Open Scope string_scope.
Local Open Scope Z_scope.
Local Open Scope list_scope.
Local Open Scope js_scope.

(** ** More on the stable sort *)

Section SortOn.

Context {A : Type}.
Variable cmp : A -> A -> Z.
Variable P : A -> Prop.
Variable R : A -> A -> Prop.
Hypothesis R_trans : forall x y z, R x y -> R y z -> R x z.
Hypothesis cmp_keep : forall x y, P x -> P y -> (0 <? cmp x y) = false -> R x y.
Hypothesis cmp_move : forall x y, P x -> P y -> (0 <? cmp x y) = true -> R y x.

Lemma sort_insert_sorted_on (x : A) (l : list A) :
  P x -> Forall P l ->
  StronglySorted R l -> StronglySorted R (sort_insert cmp x l).
Proof.
  intros Px. induction l as [|y l IH]; simpl; intros Pl Hs.
  - repeat constructor.
  - inversion Hs as [|? ? Hl Hy]; subst.
    inversion Pl as [|? ? Py Pl']; subst.
    rewrite Forall_forall in Hy.
    destruct (0 <? cmp x y) eqn:E.
    + constructor; [now apply IH|].
      apply Forall_forall. intros z Hz.
      apply (Permutation_in _ (sort_insert_perm cmp x l)) in Hz.
      destruct Hz as [<-|Hz]; [now apply cmp_move | now apply Hy].
    + constructor; [assumption|].
      constructor; [now apply cmp_keep|].
      apply Forall_forall. intros z Hz.
      apply R_trans with y; [now apply cmp_keep | now apply Hy].
Qed.

Lemma Array_sort_sorted_on (l : list A) :
  Forall P l -> StronglySorted R (Array_sort cmp l).
Proof.
  induction l as [|x l IH]; simpl; intros Pl.
  - constructor.
  - inversion Pl as [|? ? Px Pl']; subst.
    apply sort_insert_sorted_on; [assumption | | now apply IH].
    apply Forall_forall. intros z Hz.
    apply (Permutation_in _ (Array_sort_perm cmp l)) in Hz.
    rewrite Forall_forall in Pl'. now apply Pl'.
Qed.

End SortOn.

Section Stability.

Context {A : Type}.
Variable cmp : A -> A -> Z.

(** A class of elements, given by the test [p], none of which the
    comparator puts behind another. *)
Variable p : A -> bool.
Hypothesis p_ties : forall x y, p x = true -> p y = true -> (0 <? cmp x y) = false.

Lemma sort_insert_stable (x : A) (l : list A) :
  filter p (sort_insert cmp x l) = filter p (x :: l).
Proof.
  induction l as [|y l IH]; [reflexivity|].
  cbn [sort_insert]. destruct (0 <? cmp x y) eqn:E; [|reflexivity].
  cbn [filter] in *. rewrite IH.
  destruct (p x) eqn:Px, (p y) eqn:Py; try reflexivity.
  rewrite (p_ties x y Px Py) in E. discriminate.
Qed.

Lemma Array_sort_stable (l : list A) :
  filter p (Array_sort cmp l) = filter p l.
Proof.
  induction l as [|x l IH]; [reflexivity|].
  cbn [Array_sort]. rewrite sort_insert_stable. cbn [filter].
  now rewrite IH.
Qed.

End Stability.

(** ** More on strings *)

Lemma prefix_toLowerCase (sub s : string) :
  String.prefix sub s = true ->
  String.prefix (toLowerCase sub) (toLowerCase s) = true.
Proof.
  revert sub. induction s as [|c s IH]; intros sub; simpl.
  - destruct sub; simpl; [reflexivity | discriminate].
  - destruct sub as [|b sub]; simpl; [reflexivity|].
    destruct (ascii_dec b c) as [->|N]; [|discriminate].
    intros H. destruct (ascii_dec (lower_ascii c) (lower_ascii c));
      [now apply IH | congruence].
Qed.

Lemma includes_toLowerCase (s sub : string) :
  includes s sub = true -> includes (toLowerCase s) (toLowerCase sub) = true.
Proof.
  induction s as [|c s IH]; cbn [includes toLowerCase]; intros H.
  - apply orb_true_iff in H. destruct H as [H|H]; [|discriminate].
    apply prefix_toLowerCase in H. cbn [toLowerCase] in H.
    now rewrite H.
  - apply orb_true_iff in H. apply orb_true_iff. destruct H as [H|H].
    + left. now apply (prefix_toLowerCase sub (String c s)).
    + right. now apply IH.
Qed.

Lemma toLowerCase_truthy (s : string) : truthy (toLowerCase s) = truthy s.
Proof. destruct s; reflexivity. Qed.

Lemma Number_toString_inj (m n : Z) :
  Number_toString m = Number_toString n -> m = n.
Proof.
  unfold Number_toString. intros E.
  assert (ok : forall z, Z.to_int z <> Decimal.Pos Decimal.Nil
                         /\ Z.to_int z <> Decimal.Neg Decimal.Nil).
  { intros [|q|q]; simpl; split; try discriminate;
      intros F; injection F as F;
      now apply DecimalPos.Unsigned.to_uint_nonnil in F. }
  apply DecimalZ.to_int_inj.
  assert (S : Some (Z.to_int m) = Some (Z.to_int n)).
  { rewrite <- (NilZero.isi (Z.to_int m)), <- (NilZero.isi (Z.to_int n));
      try apply ok. now rewrite E. }
  now injection S.
Qed.

(** ** More on sets *)

Lemma StrSet_has_add (i j : string) (s : StrSet.t) :
  StrSet.has j (StrSet.add i s) = StrSet.has j s || String.eqb j i.
Proof.
  unfold StrSet.add. destruct (StrSet.has i s) eqn:E.
  - destruct (String.eqb_spec j i) as [->|N].
    + now rewrite E.
    + now rewrite orb_false_r.
  - unfold StrSet.has. rewrite existsb_app. cbn [existsb].
    now rewrite orb_false_r.
Qed.

Lemma StrSet_has_delete (i j : string) (s : StrSet.t) :
  StrSet.has j (StrSet.delete i s) = StrSet.has j s && negb (String.eqb j i).
Proof.
  unfold StrSet.has, StrSet.delete.
  induction s as [|x s IH]; [reflexivity|].
  cbn [filter existsb].
  destruct (String.eqb_spec i x) as [->|N]; cbn [negb existsb].
  - rewrite IH. destruct (String.eqb_spec j x) as [->|M]; cbn [negb orb].
    + now rewrite andb_false_r.
    + reflexivity.
  - rewrite IH. destruct (String.eqb_spec j x) as [->|M]; cbn [orb].
    + destruct (String.eqb_spec x i) as [->|K]; [congruence | reflexivity].
    + reflexivity.
Qed.

Lemma StrSet_delete_absent (i : string) (s : StrSet.t) :
  ~ In i s -> StrSet.delete i s = s.
Proof.
  unfold StrSet.delete. induction s as [|x s IH]; intros Hn; [reflexivity|].
  cbn [filter]. destruct (String.eqb_spec i x) as [->|N].
  - exfalso. apply Hn. now left.
  - cbn [negb]. f_equal. apply IH. intros H. apply Hn. now right.
Qed.

Lemma StrSet_size_delete (i : string) (s : StrSet.t) :
  NoDup s -> In i s -> StrSet.size (StrSet.delete i s) = StrSet.size s - 1.
Proof.
  unfold StrSet.size. induction s as [|x s IH]; intros Hnd Hin; [contradiction|].
  inversion Hnd as [|? ? Hx Hnd']; subst.
  unfold StrSet.delete in *. cbn [filter].
  destruct (String.eqb_spec i x) as [->|N]; cbn [negb].
  - fold (StrSet.delete x s). rewrite (StrSet_delete_absent x s Hx).
    cbn [List.length]. lia.
  - destruct Hin as [->|Hin]; [congruence|].
    cbn [List.length]. rewrite !Nat2Z.inj_succ, (IH Hnd' Hin). lia.
Qed.

Lemma StrSet_delete_NoDup (i : string) (s : StrSet.t) :
  NoDup s -> NoDup (StrSet.delete i s).
Proof. intros H. unfold StrSet.delete. now apply NoDup_filter. Qed.

Lemma StrSet_size_add (i : string) (s : StrSet.t) :
  StrSet.has i s = false -> StrSet.size (StrSet.add i s) = StrSet.size s + 1.
Proof.
  intros E. unfold StrSet.add, StrSet.size. rewrite E, length_app.
  cbn [List.length]. lia.
Qed.

(** What [handleSelectDocument] writes. *)
Lemma handleSelectDocument_next (i : string) (c : Component) :
  selectedDocuments (next (handleSelectDocument i) c)
  = (if StrSet.has i (selectedDocuments c)
     then StrSet.delete i (selectedDocuments c)
     else StrSet.add i (selectedDocuments c)).
Proof.
  unfold next, run, handleSelectDocument, StrSet.copy.
  destruct (StrSet.has i (selectedDocuments c)); reflexivity.
Qed.

(** ** Selecting rows *)

(** X1: a click on a row's check box flips the membership of that row's
    identifier and of no other, keeps the selection free of repetitions,
    and moves its size by one: down when the row was selected, up when it
    was not. *)
Theorem select_document_toggles (i : string) (c : Component) :
  NoDup (selectedDocuments c) ->
  NoDup (selectedDocuments (next (handleSelectDocument i) c))
  /\ StrSet.has i (selectedDocuments (next (handleSelectDocument i) c))
     = negb (StrSet.has i (selectedDocuments c))
  /\ (forall j, j <> i ->
                StrSet.has j (selectedDocuments (next (handleSelectDocument i) c))
                = StrSet.has j (selectedDocuments c))
  /\ StrSet.size (selectedDocuments (next (handleSelectDocument i) c))
     = (if StrSet.has i (selectedDocuments c)
        then StrSet.size (selectedDocuments c) - 1
        else StrSet.size (selectedDocuments c) + 1).
Proof.
  intros Hnd. rewrite handleSelectDocument_next.
  destruct (StrSet.has i (selectedDocuments c)) eqn:E; cbn [negb].
  - split; [now apply StrSet_delete_NoDup|].
    split; [now rewrite StrSet_has_delete, String.eqb_refl, andb_false_r|].
    split.
    + intros j Hj. rewrite StrSet_has_delete.
      destruct (String.eqb_spec j i); [congruence | now rewrite andb_true_r].
    + apply StrSet_size_delete; [assumption | now apply StrSet_has_In].
  - split; [now apply StrSet_add_NoDup|].
    split; [now rewrite StrSet_has_add, String.eqb_refl, orb_true_r|].
    split.
    + intros j Hj. rewrite StrSet_has_add.
      destruct (String.eqb_spec j i); [congruence | now rewrite orb_false_r].
    + now apply StrSet_size_add.
Qed.

Lemma select_document_toggles_witness :
  NoDup (selectedDocuments all_selected)
  /\ StrSet.size
       (selectedDocuments (next (handleSelectDocument "a-1.pdf") all_selected))
     = 1.
Proof.
  assert (Hnd : NoDup (selectedDocuments all_selected)).
  { repeat constructor; simpl; intuition discriminate. }
  split; [exact Hnd|].
  exact (proj2 (proj2 (proj2
           (select_document_toggles "a-1.pdf" all_selected Hnd)))).
Defined.

(** X2: two clicks on the same row's check box give back the selection
    that was there: the same identifiers, as many of them. *)
Theorem select_document_twice (i : string) (c : Component) :
  NoDup (selectedDocuments c) ->
  (forall j,
      StrSet.has j
        (selectedDocuments
           (next (handleSelectDocument i) (next (handleSelectDocument i) c)))
      = StrSet.has j (selectedDocuments c))
  /\ StrSet.size
       (selectedDocuments
          (next (handleSelectDocument i) (next (handleSelectDocument i) c)))
     = StrSet.size (selectedDocuments c).
Proof.
  intros Hnd.
  rewrite (handleSelectDocument_next i (next (handleSelectDocument i) c)).
  rewrite (handleSelectDocument_next i c).
  destruct (StrSet.has i (selectedDocuments c)) eqn:E.
  - rewrite StrSet_has_delete, String.eqb_refl, andb_false_r. split.
    + intros j. rewrite StrSet_has_add, StrSet_has_delete.
      destruct (String.eqb_spec j i) as [->|N]; cbn [negb].
      * now rewrite E.
      * now rewrite andb_true_r, orb_false_r.
    + rewrite StrSet_size_add
        by now rewrite StrSet_has_delete, String.eqb_refl, andb_false_r.
      rewrite StrSet_size_delete;
        [lia | assumption | now apply StrSet_has_In].
  - rewrite StrSet_has_add, String.eqb_refl, orb_true_r. split.
    + intros j. rewrite StrSet_has_delete, StrSet_has_add.
      destruct (String.eqb_spec j i) as [->|N]; cbn [negb].
      * now rewrite E.
      * now rewrite andb_true_r, orb_false_r.
    + rewrite StrSet_size_delete;
        [ | now apply StrSet_add_NoDup
          | apply StrSet_has_In;
            now rewrite StrSet_has_add, String.eqb_refl, orb_true_r ].
      rewrite StrSet_size_add by assumption. lia.
Qed.

Lemma select_document_twice_witness :
  NoDup (selectedDocuments all_selected)
  /\ StrSet.size
       (selectedDocuments
          (next (handleSelectDocument "a-1.pdf")
                (next (handleSelectDocument "a-1.pdf") all_selected)))
     = StrSet.size (selectedDocuments all_selected).
Proof.
  assert (Hnd : NoDup (selectedDocuments all_selected)).
  { repeat constructor; simpl; intuition discriminate. }
  split; [exact Hnd|].
  exact (proj2 (select_document_twice "a-1.pdf" all_selected Hnd)).
Defined.

(** X3: after a click on 'Select All' the rows are marked all or none.
    When the click cleared, no row is marked and the header is not
    marked; when it selected, every visible row is marked, only
    identifiers of visible rows are selected, and the header is marked
    provided the visible identifiers are pairwise distinct and there is a
    visible row. *)
Theorem selectAll_marks_rows (c : Component) :
  (StrSet.size (selectedDocuments c)
   = Z.of_nat (List.length (filteredDocuments c)) ->
   (forall d, rowChecked (next handleSelectAll c) d = false)
   /\ selectAllChecked (next handleSelectAll c) = false)
  /\ (StrSet.size (selectedDocuments c)
      <> Z.of_nat (List.length (filteredDocuments c)) ->
      (forall d, In d (filteredDocuments c) ->
                 rowChecked (next handleSelectAll c) d = true)
      /\ (forall d, rowChecked (next handleSelectAll c) d = true ->
                    In (id d) (visibleIds c))
      /\ (NoDup (visibleIds c) -> filteredDocuments c <> [] ->
          selectAllChecked (next handleSelectAll c) = true)).
Proof.
  unfold rowChecked, selectAllChecked.
  rewrite handleSelectAll_next.
  unfold withSelection, state_of, setSelectedDocuments, modify.
  cbn [fst snd selectedDocuments filteredDocuments].
  split; intros E.
  - apply Z.eqb_eq in E. rewrite E. split; [reflexivity|].
    cbn [StrSet.size StrSet.empty List.length].
    destruct (filteredDocuments c); reflexivity.
  - apply Z.eqb_neq in E. rewrite E. split; [|split].
    + intros d Hd. apply StrSet_has_In, StrSet_of_array_In.
      unfold visibleIds. now apply in_map.
    + intros d Hd. apply (proj1 (StrSet_has_In _ _)) in Hd.
      exact (proj1 (StrSet_of_array_In _ _) Hd).
    + intros Hnd Hne. rewrite (StrSet_of_array_distinct _ Hnd).
      unfold StrSet.size, visibleIds. rewrite length_map, Z.eqb_refl.
      destruct (filteredDocuments c); [congruence | reflexivity].
Qed.

Lemma selectAll_marks_rows_witness :
  StrSet.size (selectedDocuments two_loaded)
  <> Z.of_nat (List.length (filteredDocuments two_loaded))
  /\ In doc_b (filteredDocuments two_loaded)
  /\ rowChecked (next handleSelectAll two_loaded) doc_b = true.
Proof.
  assert (Hne : StrSet.size (selectedDocuments two_loaded)
                <> Z.of_nat (List.length (filteredDocuments two_loaded)))
    by (vm_compute; discriminate).
  assert (Hin : In doc_b (filteredDocuments two_loaded)) by (right; now left).
  split; [exact Hne|]. split; [exact Hin|].
  exact (proj1 (proj2 (selectAll_marks_rows two_loaded) Hne) doc_b Hin).
Defined.

(** ** The header icons *)

(** X4: after a click on the header of column [k], that header alone
    carries the highlighted icon; its arrow points down exactly when the
    click turned an ascending sort by [k] into a descending one, and every
    other header shows the grey up arrow. *)
Theorem sort_icon_follows_click (k k' : SortKey) (c : Component) :
  className (getSortIcon k' (next (handleSort k) c))
  = (if SortKey_eqb k k' then "h-4 w-4 text-blue-600"
     else "h-4 w-4 text-gray-400")
  /\ (icon (getSortIcon k' (next (handleSort k) c)) = ChevronDown
      <-> k' = k /\ key (sortConfig c) = Some k
          /\ direction (sortConfig c) = asc).
Proof.
  unfold getSortIcon. rewrite handleSort_next. cbn [key direction].
  destruct (SortKey_eqb k k') eqn:K.
  - apply SortKey_eqb_eq in K. subst k'.
    destruct (key (sortConfig c)) as [k0|].
    + destruct (SortKey_eqb k0 k) eqn:K0; cbn [andb].
      * apply SortKey_eqb_eq in K0. subst k0.
        destruct (direction (sortConfig c)); cbn; split; try reflexivity;
          split; try tauto; try discriminate;
          intros (_ & _ & F); discriminate.
      * cbn. split; [reflexivity|]. split; [discriminate|].
        intros (_ & F & _). injection F as ->.
        destruct k; discriminate.
    + cbn. split; [reflexivity|]. split; [discriminate|].
      intros (_ & F & _). discriminate.
  - split; [reflexivity|]. cbn [icon]. split; [discriminate|].
    intros (-> & _). destruct k; discriminate.
Qed.

(** ** The view as a whole *)

Lemma filter_twice {A} (q1 q2 : A -> bool) (rows : list A) :
  filter q2 (filter q1 rows) = filter (fun r => q1 r && q2 r) rows.
Proof.
  induction rows as [|r rows IH]; [reflexivity|].
  cbn [filter]. destruct (q1 r); cbn [filter andb]; now rewrite IH.
Qed.

Lemma filter_all {A} (rows : list A) : filter (fun _ => true) rows = rows.
Proof. induction rows as [|r rows IH]; [reflexivity|]. cbn. now f_equal. Qed.

(** The three filters together keep the documents that pass
    [passesFilters], in their order. *)
Lemma filters_are_passesFilters {host : Host} (c : Component) :
  applyDateFilter (dateFilter c)
    (applySizeFilter (sizeFilter c)
       (applySearchFilter (searchTerm c) (documents c)))
  = filter (passesFilters c) (documents c).
Proof.
  assert (S : applySearchFilter (searchTerm c) (documents c)
              = filter (fun d => negb (truthy (searchTerm c))
                                 || includes (toLowerCase (name d))
                                             (toLowerCase (searchTerm c)))
                       (documents c)).
  { unfold applySearchFilter. destruct (truthy (searchTerm c)); cbn [negb orb];
      [reflexivity | now rewrite filter_all]. }
  assert (Z : forall l,
             applySizeFilter (sizeFilter c) l
             = filter (fun d => negb (truthy (sizeFilter c))
                                || isNaN (parseFloat (sizeFilter c))
                                || Number_ge (docSizeMB d)
                                             (parseFloat (sizeFilter c))) l).
  { intros l. unfold applySizeFilter.
    destruct (truthy (sizeFilter c)); cbn [negb orb];
      [|now rewrite filter_all].
    destruct (isNaN (parseFloat (sizeFilter c))); cbn [negb orb];
      [now rewrite filter_all | reflexivity]. }
  assert (D : forall l,
             applyDateFilter (dateFilter c) l
             = filter (fun d => negb (truthy (dateFilter c))
                                || Date_ge (uploadDate d)
                                           (Date_parse (dateFilter c))) l).
  { intros l. unfold applyDateFilter.
    destruct (truthy (dateFilter c)); cbn [negb orb];
      [reflexivity | now rewrite filter_all]. }
  rewrite S, Z, filter_twice, D, filter_twice. reflexivity.
Qed.

(** The view as a rearrangement of the passing documents (shared by the
    statements below). *)
Lemma deriveView_perm_loaded {host : Host} (c : Component) :
  Permutation (deriveView c) (filter (passesFilters c) (documents c))
  /\ (forall d, In d (deriveView c) -> In d (documents c)).
Proof.
  assert (Hp : Permutation (deriveView c)
                           (filter (passesFilters c) (documents c))).
  { unfold deriveView. rewrite filters_are_passesFilters.
    apply applySorting_perm. }
  split; [exact Hp|].
  intros d Hd. apply (Permutation_in _ Hp) in Hd.
  apply filter_In in Hd. tauto.
Qed.

(** X5: the view holds exactly the loaded documents that pass every
    filter that is set, each as often as it is loaded; sorting only
    reorders them, and without a sort key they keep the order of the
    collection. *)
Theorem view_is_filtered_collection {host : Host} (c : Component) :
  Permutation (deriveView c) (filter (passesFilters c) (documents c))
  /\ (key (sortConfig c) = None ->
      deriveView c = filter (passesFilters c) (documents c))
  /\ (forall d, In d (deriveView c)
                <-> In d (documents c) /\ passesFilters c d = true)
  /\ (List.length (deriveView c) <= List.length (documents c))%nat.
Proof.
  assert (Hp : Permutation (deriveView c)
                           (filter (passesFilters c) (documents c))).
  { unfold deriveView. rewrite filters_are_passesFilters.
    apply applySorting_perm. }
  split; [exact Hp|]. split; [|split].
  - intros Hk. unfold deriveView. rewrite filters_are_passesFilters.
    unfold applySorting. now rewrite Hk.
  - intros d. rewrite <- filter_In. split; intros H.
    + exact (Permutation_in _ Hp H).
    + exact (Permutation_in _ (Permutation_sym Hp) H).
  - rewrite (Permutation_length Hp). apply filter_length_le.
Qed.

Lemma view_is_filtered_collection_witness :
  key (sortConfig (withFilters "B" "1.5" "2024-01-15" two_loaded)) = None
  /\ deriveView (host := date_only_host)
       (withFilters "B" "1.5" "2024-01-15" two_loaded)
     = [doc_b].
Proof.
  split; [reflexivity|].
  exact (proj1 (proj2 (view_is_filtered_collection (host := date_only_host)
                         (withFilters "B" "1.5" "2024-01-15" two_loaded)))
           eq_refl).
Defined.

(** ** The search filter *)

(** X6: on ASCII text the search does not look at case.  Two ASCII
    search terms that agree after lower-casing keep the same documents,
    and every document whose ASCII name contains the ASCII term as typed
    is kept. *)
Theorem search_ignores_case (l : list Document) :
  (forall t1 t2, isAscii t1 = true -> isAscii t2 = true ->
                 toLowerCase t1 = toLowerCase t2 ->
                 applySearchFilter t1 l = applySearchFilter t2 l)
  /\ (forall term d, isAscii term = true -> isAscii (name d) = true ->
                     In d l -> includes (name d) term = true ->
                     In d (applySearchFilter term l)).
Proof.
  split.
  - intros t1 t2 _ _ E. unfold applySearchFilter.
    rewrite <- (toLowerCase_truthy t1), <- (toLowerCase_truthy t2), E.
    reflexivity.
  - intros term d _ _ Hin Hinc. unfold applySearchFilter.
    destruct (truthy term); [|assumption].
    apply filter_In. split; [assumption|].
    now apply includes_toLowerCase.
Qed.

Lemma search_ignores_case_witness :
  isAscii "A.PDF" = true /\ isAscii "a.pdf" = true
  /\ toLowerCase "A.PDF" = toLowerCase "a.pdf"
  /\ applySearchFilter "A.PDF" [doc_a; doc_b; doc_A] = [doc_a; doc_A]
  /\ applySearchFilter "A.PDF" [doc_a; doc_b; doc_A]
     = applySearchFilter "a.pdf" [doc_a; doc_b; doc_A].
Proof.
  split; [reflexivity|]. split; [reflexivity|].
  split; [reflexivity|]. split; [reflexivity|].
  exact (proj1 (search_ignores_case [doc_a; doc_b; doc_A])
               "A.PDF" "a.pdf" eq_refl eq_refl eq_refl).
Defined.

(** ** The size filter *)

Lemma parseFloat_Finite_truthy (sz : string) (q : Q) :
  parseFloat sz = Finite q -> truthy sz = true.
Proof. destruct sz; [discriminate | reflexivity]. Qed.

Lemma applySizeFilter_Finite (sz : string) (q : Q) (l : list Document)
  (d : Document) :
  parseFloat sz = Finite q ->
  (In d (applySizeFilter sz l)
   <-> In d l /\ (q <= Qmake (size d) 1048576)%Q).
Proof.
  intros E. unfold applySizeFilter.
  rewrite (parseFloat_Finite_truthy sz q E), E. cbn [isNaN negb].
  rewrite filter_In. unfold docSizeMB, Number_ge.
  rewrite Qle_bool_iff. reflexivity.
Qed.

(** X7: a larger minimum size shows fewer documents: every document
    kept under a threshold is kept under every smaller one.  A threshold
    that is a number keeps exactly the documents whose size in bytes
    divided by 1048576 reaches it. *)
Theorem size_filter_monotone (s1 s2 : string) (q1 q2 : Q)
  (l : list Document) :
  parseFloat s1 = Finite q1 -> parseFloat s2 = Finite q2 ->
  (q1 <= q2)%Q ->
  (forall d, In d (applySizeFilter s2 l) -> In d (applySizeFilter s1 l))
  /\ (forall d, In d (applySizeFilter s2 l)
                <-> In d l /\ (q2 <= Qmake (size d) 1048576)%Q).
Proof.
  intros E1 E2 Hle. split.
  - intros d Hd.
    apply (applySizeFilter_Finite s2 q2 l d E2) in Hd.
    apply (applySizeFilter_Finite s1 q1 l d E1).
    destruct Hd as [Hin Hq]. split; [assumption|].
    now apply Qle_trans with q2.
  - intros d. now apply applySizeFilter_Finite.
Qed.

Lemma size_filter_monotone_witness :
  parseFloat "0.5" = Finite (1 # 2)
  /\ parseFloat "2" = Finite 2
  /\ (1 # 2 <= 2)%Q
  /\ In doc_b (applySizeFilter "2" [doc_a; doc_b])
  /\ In doc_b (applySizeFilter "0.5" [doc_a; doc_b]).
Proof.
  assert (Hle : (1 # 2 <= 2)%Q) by (vm_compute; discriminate).
  assert (Hin : In doc_b (applySizeFilter "2" [doc_a; doc_b])) by (now left).
  split; [reflexivity|]. split; [reflexivity|]. split; [exact Hle|].
  split; [exact Hin|].
  exact (proj1 (size_filter_monotone "0.5" "2" (1 # 2) 2 [doc_a; doc_b]
                  eq_refl eq_refl Hle) doc_b Hin).
Defined.

(** ** The date filter *)

(** X8: a threshold that is a valid date keeps, in their order, exactly
    the documents whose upload date is valid and not before it, the
    instant of the threshold included; a document with an Invalid Date
    never passes. *)
Theorem date_filter_inclusive {host : Host} (dt : string) (t : Z)
  (l : list Document) :
  dt <> "" -> Date_parse dt = Some t ->
  (forall d, In d (applyDateFilter dt l)
             <-> In d l /\ exists u, uploadDate d = Some u /\ t <= u)
  /\ (forall d, In d l -> uploadDate d = Some t -> In d (applyDateFilter dt l))
  /\ (forall d, uploadDate d = None -> ~ In d (applyDateFilter dt l)).
Proof.
  intros Hne Hp.
  destruct (applyDateFilter_valid dt t l Hne Hp) as [_ Hiff].
  split; [exact Hiff|]. split.
  - intros d Hin Hu. apply Hiff. split; [assumption|].
    exists t. split; [assumption | lia].
  - intros d Hu Hin. apply Hiff in Hin.
    destruct Hin as [_ [u [E _]]]. congruence.
Qed.

Lemma date_filter_inclusive_witness :
  "2024-02-01" <> ""
  /\ parse_date_only "2024-02-01" = Some 1706745600000
  /\ uploadDate doc_b = Some 1706745600000
  /\ In doc_b (applyDateFilter (host := date_only_host) "2024-02-01"
                               [doc_a; doc_b]).
Proof.
  assert (Hne : "2024-02-01" <> "") by discriminate.
  split; [exact Hne|]. split; [reflexivity|]. split; [reflexivity|].
  apply (proj1 (proj2 (date_filter_inclusive (host := date_only_host)
                         "2024-02-01" 1706745600000 [doc_a; doc_b]
                         Hne eq_refl))).
  - right. now left.
  - reflexivity.
Defined.

(** ** The order of the view *)

Lemma deriveView_sorted_form {host : Host} (c : Component) (k : SortKey) :
  key (sortConfig c) = Some k ->
  deriveView c
  = Array_sort (compareDocs k (direction (sortConfig c)))
               (filter (passesFilters c) (documents c)).
Proof.
  intros Hk. unfold deriveView. rewrite filters_are_passesFilters.
  unfold applySorting. now rewrite Hk.
Qed.

Lemma compare_size (dir : Direction) (x y : Document) :
  ((0 <? compareDocs key_size dir x y) = false ->
   match dir with asc => size x <= size y | desc => size y <= size x end)
  /\ ((0 <? compareDocs key_size dir x y) = true ->
      match dir with asc => size y <= size x | desc => size x <= size y end).
Proof.
  unfold compareDocs.
  destruct (Z.ltb_spec (size x) (size y)), (Z.ltb_spec (size y) (size x)),
    dir; split; intros E; vm_compute in E; try discriminate; lia.
Qed.

(** X9: with the sort key 'size' the view is in order of size: no
    document is followed, anywhere later in the view, by a smaller one
    when the direction is ascending, nor by a larger one when it is
    descending. *)
Theorem view_sorted_by_size {host : Host} (c : Component) :
  key (sortConfig c) = Some key_size ->
  StronglySorted
    (fun a b => match direction (sortConfig c) with
                | asc => size a <= size b
                | desc => size b <= size a
                end)
    (deriveView c).
Proof.
  intros Hk. rewrite (deriveView_sorted_form c key_size Hk).
  apply Array_sort_sorted.
  - intros x y z. destruct (direction (sortConfig c)); lia.
  - intros x y. apply compare_size.
  - intros x y E. apply (proj2 (compare_size _ x y)) in E.
    destruct (direction (sortConfig c)); exact E.
Qed.

Lemma view_sorted_by_size_witness :
  key (sortConfig (withSort (bySize desc) three_loaded)) = Some key_size
  /\ deriveView (host := date_only_host) (withSort (bySize desc) three_loaded)
     = [doc_b; doc_a; doc_d]
  /\ StronglySorted (fun a b => size b <= size a)
       (deriveView (host := date_only_host)
                   (withSort (bySize desc) three_loaded)).
Proof.
  split; [reflexivity|]. split; [reflexivity|].
  exact (view_sorted_by_size (host := date_only_host)
           (withSort (bySize desc) three_loaded) eq_refl).
Defined.

(** X10: with the sort key 'name' the view is in the order of the
    lower-cased names, compared character by character: ascending, no
    later document has a smaller lower-cased name; descending, none has a
    larger one. *)
Theorem view_sorted_by_name {host : Host} (c : Component) :
  key (sortConfig c) = Some key_name ->
  StronglySorted
    (fun a b => match direction (sortConfig c) with
                | asc => String.compare (lowerName a) (lowerName b) <> Gt
                | desc => String.compare (lowerName b) (lowerName a) <> Gt
                end)
    (deriveView c).
Proof.
  intros Hk. rewrite (deriveView_sorted_form c key_name Hk).
  destruct (direction (sortConfig c)).
  - apply sort_name_asc_sorted.
  - apply sort_name_desc_sorted.
Qed.

Lemma view_sorted_by_name_witness :
  key (sortConfig (withSort (byName asc) three_loaded)) = Some key_name
  /\ deriveView (host := date_only_host) (withSort (byName asc) three_loaded)
     = [doc_a; doc_b; doc_d]
  /\ StronglySorted
       (fun a b => String.compare (lowerName a) (lowerName b) <> Gt)
       (deriveView (host := date_only_host)
                   (withSort (byName asc) three_loaded)).
Proof.
  split; [reflexivity|]. split; [reflexivity|].
  exact (view_sorted_by_name (host := date_only_host)
           (withSort (byName asc) three_loaded) eq_refl).
Defined.

Lemma compare_uploadDate (dir : Direction) (x y : Document) (tx ty : Z) :
  uploadDate x = Some tx -> uploadDate y = Some ty ->
  ((0 <? compareDocs key_uploadDate dir x y) = false ->
   match dir with asc => tx <= ty | desc => ty <= tx end)
  /\ ((0 <? compareDocs key_uploadDate dir x y) = true ->
      match dir with asc => ty <= tx | desc => tx <= ty end).
Proof.
  intros Ex Ey. unfold compareDocs, getTime, time_lt. rewrite Ex, Ey.
  destruct (Z.ltb_spec tx ty), (Z.ltb_spec ty tx), dir;
    split; intros E; vm_compute in E; try discriminate; lia.
Qed.

(** X11: when every loaded document has a valid upload date, the view
    sorted by 'uploadDate' is in order of time: ascending, no later
    document was uploaded earlier; descending, none was uploaded later. *)
Theorem view_sorted_by_uploadDate {host : Host} (c : Component) :
  key (sortConfig c) = Some key_uploadDate ->
  Forall (fun d => uploadDate d <> None) (documents c) ->
  StronglySorted
    (fun a b => exists ta tb,
         uploadDate a = Some ta /\ uploadDate b = Some tb
         /\ match direction (sortConfig c) with
            | asc => ta <= tb
            | desc => tb <= ta
            end)
    (deriveView c).
Proof.
  intros Hk Hvalid. rewrite (deriveView_sorted_form c key_uploadDate Hk).
  apply (Array_sort_sorted_on _ (fun d => uploadDate d <> None)).
  - intros x y z (tx & ty & Ex & Ey & Hxy) (ty' & tz & Ey' & Ez & Hyz).
    exists tx, tz. repeat split; try assumption.
    assert (ty' = ty) by congruence. subst ty'.
    destruct (direction (sortConfig c)); lia.
  - intros x y Px Py E.
    destruct (uploadDate x) as [tx|] eqn:Ex; [|congruence].
    destruct (uploadDate y) as [ty|] eqn:Ey; [|congruence].
    exists tx, ty. repeat split.
    apply (proj1 (compare_uploadDate _ x y tx ty Ex Ey)) in E.
    destruct (direction (sortConfig c)); exact E.
  - intros x y Px Py E.
    destruct (uploadDate x) as [tx|] eqn:Ex; [|congruence].
    destruct (uploadDate y) as [ty|] eqn:Ey; [|congruence].
    exists ty, tx. repeat split.
    apply (proj2 (compare_uploadDate _ x y tx ty Ex Ey)) in E.
    destruct (direction (sortConfig c)); exact E.
  - rewrite Forall_forall in *. intros d Hd. apply filter_In in Hd.
    now apply Hvalid.
Qed.

Lemma view_sorted_by_uploadDate_witness :
  key (sortConfig (withSort (byUploadDate asc) three_loaded))
  = Some key_uploadDate
  /\ Forall (fun d => uploadDate d <> None) (documents three_loaded)
  /\ deriveView (host := date_only_host)
       (withSort (byUploadDate asc) three_loaded)
     = [doc_d; doc_a; doc_b]
  /\ StronglySorted
       (fun a b => exists ta tb,
            uploadDate a = Some ta /\ uploadDate b = Some tb /\ ta <= tb)
       (deriveView (host := date_only_host)
                   (withSort (byUploadDate asc) three_loaded)).
Proof.
  assert (Hv : Forall (fun d => uploadDate d <> None)
                      (documents three_loaded)).
  { repeat constructor; discriminate. }
  split; [reflexivity|]. split; [exact Hv|]. split; [reflexivity|].
  exact (view_sorted_by_uploadDate (host := date_only_host)
           (withSort (byUploadDate asc) three_loaded) eq_refl Hv).
Defined.

(** X12: the sort is stable where it compares consistently, that is
    by name, by size, and by upload date when no loaded document has an
    Invalid Date.  Documents that the comparator takes for equal (the same
    size, the same lower-cased name, the same upload instant) then stand
    in the sorted view in the order they have in the collection, in either
    direction. *)
Theorem sort_keeps_ties_in_order {host : Host} (c : Component) (k : SortKey)
  (tie : Document -> bool) :
  key (sortConfig c) = Some k ->
  comparesConsistently k c ->
  (forall a b, tie a = true -> tie b = true ->
               compareDocs k (direction (sortConfig c)) a b = 0) ->
  filter tie (deriveView c)
  = filter tie (filter (passesFilters c) (documents c)).
Proof.
  intros Hk _ Hties. rewrite (deriveView_sorted_form c k Hk).
  apply Array_sort_stable. intros x y Hx Hy.
  now rewrite (Hties x y Hx Hy).
Qed.

Lemma sort_keeps_ties_in_order_witness :
  key (sortConfig (withSort (bySize desc) three_loaded)) = Some key_size
  /\ comparesConsistently key_size (withSort (bySize desc) three_loaded)
  /\ (forall a b, (size a =? 1048576) = true -> (size b =? 1048576) = true ->
                  compareDocs key_size desc a b = 0)
  /\ filter (fun d => size d =? 1048576)
       (deriveView (host := date_only_host)
                   (withSort (bySize desc) three_loaded))
     = [doc_a; doc_d].
Proof.
  assert (Ht : forall a b,
             (size a =? 1048576) = true -> (size b =? 1048576) = true ->
             compareDocs key_size desc a b = 0).
  { intros a b Ha Hb. apply Z.eqb_eq in Ha, Hb. unfold compareDocs.
    rewrite Ha, Hb. reflexivity. }
  assert (Hc : comparesConsistently key_size
                 (withSort (bySize desc) three_loaded))
    by (intros E; discriminate).
  split; [reflexivity|]. split; [exact Hc|]. split; [exact Ht|].
  exact (sort_keeps_ties_in_order (host := date_only_host)
           (withSort (bySize desc) three_loaded) key_size
           (fun d => size d =? 1048576) eq_refl Hc Ht).
Defined.

(** ** Loading, when the request is answered *)

Lemma processDoc_fields {host : Host} (raws : list RawDocument) (i : Z) :
  map name (mapi_from processDoc i raws) = map original_filename raws
  /\ map fileHash (mapi_from processDoc i raws) = map file_hash raws
  /\ map size (mapi_from processDoc i raws) = map file_size raws
  /\ map storedFilename (mapi_from processDoc i raws)
     = map stored_filename raws.
Proof.
  revert i. induction raws as [|r raws IH]; intros i; [repeat split|].
  destruct (IH (i + 1)) as (H1 & H2 & H3 & H4).
  cbn [mapi_from map]. rewrite H1, H2, H3, H4. repeat split.
Qed.

(** X13: when [getDocuments] is answered, [loadDocuments] replaces the
    collection by one document per entry of the answer, in the order of
    the answer, each with the entry's original file name, hash, size and
    stored name; it shows no toast, ends the loading state and leaves the
    selection as it was. *)
Theorem load_success_replaces_collection {host : Host} (api : Server)
  (s : Component) (response : ListResponse) :
  getDocuments api = Resolved response ->
  documents (state_of (loadDocuments api) s)
  = mapi_from processDoc 0 (pdfs response)
  /\ map name (documents (state_of (loadDocuments api) s))
     = map original_filename (pdfs response)
  /\ map fileHash (documents (state_of (loadDocuments api) s))
     = map file_hash (pdfs response)
  /\ map size (documents (state_of (loadDocuments api) s))
     = map file_size (pdfs response)
  /\ map storedFilename (documents (state_of (loadDocuments api) s))
     = map stored_filename (pdfs response)
  /\ selectedDocuments (state_of (loadDocuments api) s) = selectedDocuments s
  /\ loading (state_of (loadDocuments api) s) = false
  /\ trace_of (loadDocuments api) s = [CallGetDocuments].
Proof.
  intros E. unfold state_of, trace_of.
  rewrite (loadDocuments_resolved api s response E). cbn [fst snd].
  unfold withLoading, state_of, setLoading, setDocuments, modify.
  cbn [fst snd documents selectedDocuments loading].
  destruct (processDoc_fields (pdfs response) 0) as (H1 & H2 & H3 & H4).
  repeat split; assumption.
Qed.

Lemma load_success_replaces_collection_witness :
  getDocuments api_ok = Resolved {| pdfs := [raw_b] |}
  /\ documents (state_of (loadDocuments (host := date_only_host) api_ok)
                         all_selected)
     = [doc_b]
  /\ selectedDocuments
       (state_of (loadDocuments (host := date_only_host) api_ok) all_selected)
     = ["a-1.pdf"; "b-2.pdf"].
Proof.
  split; [reflexivity|]. split.
  - exact (proj1 (load_success_replaces_collection (host := date_only_host)
                    api_ok all_selected {| pdfs := [raw_b] |} eq_refl)).
  - reflexivity.
Defined.

(** The identifiers [loadDocuments] gives: a stored name that is not
    empty, or the position behind 'doc-'. *)
Lemma loaded_id_form {host : Host} (raws : list RawDocument) (i : Z)
  (x : string) :
  In x (map id (mapi_from processDoc i raws)) ->
  In x (filter truthy (map stored_filename raws))
  \/ exists j, i <= j /\ x = ("doc-" ++ Number_toString j)%string.
Proof.
  revert i. induction raws as [|r raws IH]; intros i; [contradiction|].
  cbn [mapi_from map filter id processDoc].
  intros [E|Hin].
  - destruct (truthy (stored_filename r)) eqn:T.
    + left. left. exact E.
    + right. exists i. split; [lia | now symmetry].
  - destruct (IH (i + 1) Hin) as [H|[j [Hj E]]].
    + left. destruct (truthy (stored_filename r)); [now right | assumption].
    + right. exists j. split; [lia | assumption].
Qed.

Lemma prefix_doc (t : string) : String.prefix "doc-" ("doc-" ++ t) = true.
Proof. destruct t; reflexivity. Qed.

(** X14: the identifiers of a loaded collection are pairwise distinct
    when the stored names that are not empty are pairwise distinct and
    none of them starts with 'doc-': the positions that stand in for the
    empty ones differ from each other and from every stored name. *)
Theorem loaded_ids_distinct {host : Host} (raws : list RawDocument) :
  NoDup (filter truthy (map stored_filename raws)) ->
  Forall (fun r => String.prefix "doc-" (stored_filename r) = false) raws ->
  NoDup (map id (mapi_from processDoc 0 raws)).
Proof.
  generalize 0 as i. induction raws as [|r raws IH]; intros i Hnd Hpre.
  - constructor.
  - inversion Hpre as [|? ? Hr Hpre']; subst.
    cbn [mapi_from map filter] in *.
    assert (Hstored : forall x, In x (filter truthy (map stored_filename raws))
                                -> String.prefix "doc-" x = false).
    { intros x Hx. apply filter_In in Hx. destruct Hx as [Hx _].
      apply in_map_iff in Hx. destruct Hx as [r' [<- Hr']].
      rewrite Forall_forall in Hpre'. now apply Hpre'. }
    constructor.
    + intros Hin. apply loaded_id_form in Hin.
      cbn [id processDoc] in Hin.
      destruct (truthy (stored_filename r)) eqn:T.
      * inversion Hnd as [|? ? Hx _]; subst.
        destruct Hin as [Hin|[j [_ E]]]; [now apply Hx|].
        rewrite E, prefix_doc in Hr. discriminate.
      * destruct Hin as [Hin|[j [Hj E]]].
        -- apply Hstored in Hin. rewrite prefix_doc in Hin. discriminate.
        -- injection E as E. apply Number_toString_inj in E. lia.
    + apply IH; [|assumption].
      destruct (truthy (stored_filename r)); [|assumption].
      now inversion Hnd.
Qed.

Lemma loaded_ids_distinct_witness :
  NoDup (filter truthy
           (map stored_filename [raw_unnamed; raw_b; raw_unnamed]))
  /\ Forall (fun r => String.prefix "doc-" (stored_filename r) = false)
            [raw_unnamed; raw_b; raw_unnamed]
  /\ map id (mapi_from (processDoc (host := date_only_host)) 0
                       [raw_unnamed; raw_b; raw_unnamed])
     = ["doc-0"; "b-2.pdf"; "doc-2"]
  /\ NoDup (map id (mapi_from (processDoc (host := date_only_host)) 0
                              [raw_unnamed; raw_b; raw_unnamed])).
Proof.
  assert (Hnd : NoDup (filter truthy
                         (map stored_filename
                              [raw_unnamed; raw_b; raw_unnamed]))).
  { repeat constructor. simpl. tauto. }
  assert (Hpre : Forall (fun r => String.prefix "doc-" (stored_filename r)
                                  = false)
                        [raw_unnamed; raw_b; raw_unnamed]).
  { repeat constructor. }
  split; [exact Hnd|]. split; [exact Hpre|]. split; [reflexivity|].
  exact (loaded_ids_distinct (host := date_only_host)
           [raw_unnamed; raw_b; raw_unnamed] Hnd Hpre).
Defined.

(** ** The delete workflow as a whole *)

(** The run of [handleDeleteSelected] without a selection. *)
Lemma delete_empty_run {host : Host} (api : Server) (c : Component) :
  StrSet.size (selectedDocuments c) = 0 ->
  run (handleDeleteSelected api) c
  = (Normal tt, c, [ToastError "No documents selected"]).
Proof.
  intros Z0. unfold run, handleDeleteSelected. rewrite Z0. reflexivity.
Qed.

(** X15: whatever the backend answers, [handleDeleteSelected] completes
    without an exception.  With a selection it always closes the confirm
    dialog, without one it leaves the dialog as it is.  It issues at most
    two requests; the collection is requested again only behind a delete
    request that was answered; and the collection it leaves is the one it
    found or the one the backend listed, never one edited locally. *)
Theorem delete_handler_settles {host : Host} (api : Server) (c : Component) :
  fst (fst (run (handleDeleteSelected api) c)) = Normal tt
  /\ (StrSet.size (selectedDocuments c) <> 0 ->
      showDeleteConfirm (next (handleDeleteSelected api) c) = false)
  /\ (StrSet.size (selectedDocuments c) = 0 ->
      showDeleteConfirm (next (handleDeleteSelected api) c)
      = showDeleteConfirm c)
  /\ (List.length (filter is_request (trace (handleDeleteSelected api) c))
      <= 2)%nat
  /\ (In CallGetDocuments (trace (handleDeleteSelected api) c) ->
      exists hashes result rest,
        resolveSelection c = Normal hashes
        /\ deleteDocuments api hashes = Resolved result
        /\ trace (handleDeleteSelected api) c
           = CallDeleteDocuments hashes :: rest)
  /\ (documents (next (handleDeleteSelected api) c) = documents c
      \/ exists response,
           getDocuments api = Resolved response
           /\ documents (next (handleDeleteSelected api) c)
              = mapi_from processDoc 0 (pdfs response)).
Proof.
  destruct (Z.eq_dec (StrSet.size (selectedDocuments c)) 0) as [Z0|NZ].
  - unfold next, trace.
    rewrite (delete_empty_run api c Z0).
    cbn [fst snd filter is_request List.length].
    repeat split; try (intros; congruence); try lia; try (now left).
    intros [F|[]]. discriminate.
  - unfold next, trace.
    destruct (resolveSelection c) as [hashes|e] eqn:Hres.
    + destruct (deleteDocuments api hashes) as [result|] eqn:Hdel.
      * rewrite (delete_resolved_run api c hashes result NZ Hres Hdel).
        cbn [fst snd].
        assert (N : is_request
                      (if 0 <? total_deleted result
                       then ToastSuccess
                              ("Delete Successfully - "
                               ++ Number_toString (total_deleted result)
                               ++ " files deleted")
                       else ToastError "No files were deleted") = false)
          by (destruct (0 <? total_deleted result); reflexivity).
        cbn [filter is_request]. rewrite N.
        unfold trace_of, state_of.
        destruct (getDocuments api) as [response|] eqn:Hget.
        -- rewrite (loadDocuments_resolved api _ response Hget).
           cbn [fst snd filter is_request List.length].
           repeat split; try (intros; congruence); try lia.
           ++ intros _. exists hashes, result. eexists.
              split; [reflexivity|]. split; [exact Hdel | reflexivity].
           ++ right. exists response. split; reflexivity.
        -- rewrite (loadDocuments_rejected api _ Hget).
           cbn [fst snd filter is_request List.length].
           repeat split; try (intros; congruence); try lia.
           ++ intros _. exists hashes, result. eexists.
              split; [reflexivity|]. split; [exact Hdel | reflexivity].
           ++ now left.
      * rewrite (delete_rejected_run api c hashes NZ Hres Hdel).
        cbn [fst snd filter is_request List.length].
        repeat split; try (intros; congruence); try lia; try (now left).
        intros [F|[F|[F|[]]]]; discriminate.
    + rewrite (delete_unresolved_run api c e NZ Hres).
      cbn [fst snd filter is_request List.length].
      repeat split; try (intros; congruence); try lia; try (now left).
      intros [F|[F|[]]]; discriminate.
Qed.

Lemma delete_handler_settles_witness :
  StrSet.size (selectedDocuments stale_selection) <> 0
  /\ showDeleteConfirm stale_selection = true
  /\ showDeleteConfirm
       (next (handleDeleteSelected (host := date_only_host) api_ok)
             stale_selection)
     = false.
Proof.
  assert (NZ : StrSet.size (selectedDocuments stale_selection) <> 0)
    by (vm_compute; discriminate).
  split; [exact NZ|]. split; [reflexivity|].
  exact (proj1 (proj2 (delete_handler_settles (host := date_only_host)
                         api_ok stale_selection)) NZ).
Defined.

(** The keys of documents of the collection, looked up by their
    identifiers, when the identifiers of the collection are pairwise
    distinct. *)
Lemma resolve_own_ids (docs rows : list Document) (s : Component) :
  NoDup (map id docs) ->
  (forall d, In d rows -> In d docs) ->
  result_of (mapM (resolveFileHash docs) (map id rows)) s
  = Normal (map fileHash rows).
Proof.
  intros Hnd. induction rows as [|d rows IH]; intros Hsub; [reflexivity|].
  cbn [map]. rewrite resolve_cons.
  assert (Hd : In d docs) by (apply Hsub; now left).
  destruct (Array_find_present docs (id d)) as [d' F];
    [now exists d|].
  rewrite F. destruct (Array_find_id _ _ _ F) as [Hin' Hid].
  assert (d' = d) by (apply (NoDup_map_inj id docs); assumption).
  subst d'. rewrite IH; [reflexivity|].
  intros x Hx. apply Hsub. now right.
Qed.

Lemma view_ids_distinct {host : Host} (c : Component) :
  NoDup (map id (documents c)) -> NoDup (map id (deriveView c)).
Proof.
  intros Hnd.
  destruct (deriveView_perm_loaded c) as [Hp _].
  apply (Permutation_NoDup (Permutation_map id (Permutation_sym Hp))).
  now apply NoDup_map_filter.
Qed.

(** X16: 'Select All' followed by a confirmed delete asks the backend to
    delete exactly the visible documents.  In a state whose visible rows
    are the derived view and whose identifiers are pairwise distinct, a
    selecting click on 'Select All' makes the selection resolve to the
    [fileHash] of each visible row, in the order of the view, and that
    list is what the delete request carries. *)
Theorem select_all_then_delete {host : Host} (api : Server) (c : Component) :
  NoDup (map id (documents c)) ->
  filteredDocuments c = deriveView c ->
  StrSet.size (selectedDocuments c)
  <> Z.of_nat (List.length (filteredDocuments c)) ->
  resolveSelection (next handleSelectAll c)
  = Normal (map fileHash (filteredDocuments c))
  /\ (filteredDocuments c <> [] ->
      exists rest,
        trace (handleDeleteSelected api) (next handleSelectAll c)
        = CallDeleteDocuments (map fileHash (filteredDocuments c)) :: rest).
Proof.
  intros Hnd Hview Hsize.
  assert (Hids : NoDup (visibleIds c)).
  { unfold visibleIds. rewrite Hview. now apply view_ids_distinct. }
  assert (Hsub : forall d, In d (filteredDocuments c) -> In d (documents c)).
  { intros d Hd. rewrite Hview in Hd.
    destruct (deriveView_perm_loaded c) as [_ Hin].
    now apply Hin in Hd. }
  assert (Hnext : next handleSelectAll c = withSelection (visibleIds c) c).
  { rewrite handleSelectAll_next. apply Z.eqb_neq in Hsize. rewrite Hsize.
    now rewrite (StrSet_of_array_distinct _ Hids). }
  assert (Hres : resolveSelection (next handleSelectAll c)
                 = Normal (map fileHash (filteredDocuments c))).
  { rewrite Hnext. unfold resolveSelection, withSelection, state_of,
      setSelectedDocuments, modify, StrSet.to_array, visibleIds.
    cbn [fst snd documents selectedDocuments].
    now apply resolve_own_ids. }
  split; [exact Hres|].
  intros Hne.
  assert (NZ : StrSet.size (selectedDocuments (next handleSelectAll c)) <> 0).
  { rewrite Hnext. unfold withSelection, state_of, setSelectedDocuments,
      modify, StrSet.size, visibleIds.
    cbn [fst snd selectedDocuments]. rewrite length_map.
    destruct (filteredDocuments c); [congruence | discriminate]. }
  unfold trace.
  destruct (deleteDocuments api (map fileHash (filteredDocuments c)))
    as [result|] eqn:Hdel.
  - rewrite (delete_resolved_run api _ _ result NZ Hres Hdel).
    eexists. reflexivity.
  - rewrite (delete_rejected_run api _ _ NZ Hres Hdel).
    eexists. reflexivity.
Qed.

Lemma select_all_then_delete_witness :
  NoDup (map id (documents two_loaded))
  /\ filteredDocuments two_loaded
     = deriveView (host := date_only_host) two_loaded
  /\ StrSet.size (selectedDocuments two_loaded)
     <> Z.of_nat (List.length (filteredDocuments two_loaded))
  /\ resolveSelection (next handleSelectAll two_loaded)
     = Normal ["hash-a"; "hash-b"].
Proof.
  assert (Hnd : NoDup (map id (documents two_loaded))).
  { repeat constructor; simpl; intuition discriminate. }
  assert (Hsz : StrSet.size (selectedDocuments two_loaded)
                <> Z.of_nat (List.length (filteredDocuments two_loaded)))
    by (vm_compute; discriminate).
  split; [exact Hnd|]. split; [reflexivity|]. split; [exact Hsz|].
  exact (proj1 (select_all_then_delete (host := date_only_host) api_ok
                  two_loaded Hnd eq_refl Hsz)).
Defined.

(** ** The button and the guard *)

(** X17: the toast 'No documents selected' is what the handler does
    exactly in the states in which the 'Delete Selected' button is
    disabled; in every state in which the button is enabled the handler
    goes past its guard and that toast is not shown. *)
Theorem validation_toast_iff_disabled {host : Host} (api : Server)
  (c : Component) :
  (deleteDisabled c = true
   <-> trace (handleDeleteSelected api) c
       = [ToastError "No documents selected"])
  /\ (deleteDisabled c = false ->
      ~ In (ToastError "No documents selected")
           (trace (handleDeleteSelected api) c)).
Proof.
  unfold deleteDisabled.
  destruct (Z.eqb_spec (StrSet.size (selectedDocuments c)) 0) as [Z0|NZ].
  - split; [|discriminate].
    split; [intros _ | reflexivity].
    unfold trace. now rewrite (delete_empty_run api c Z0).
  - assert (Hno : ~ In (ToastError "No documents selected")
                       (trace (handleDeleteSelected api) c)).
    { unfold trace.
      destruct (resolveSelection c) as [hashes|e] eqn:Hres.
      - destruct (deleteDocuments api hashes) as [result|] eqn:Hdel.
        + rewrite (delete_resolved_run api c hashes result NZ Hres Hdel).
          cbn [snd]. unfold trace_of.
          destruct (getDocuments api) as [response|] eqn:Hget.
          * rewrite (loadDocuments_resolved api _ response Hget). cbn [snd].
            destruct (0 <? total_deleted result);
              intros [F|[F|[F|[]]]]; discriminate.
          * rewrite (loadDocuments_rejected api _ Hget). cbn [snd].
            destruct (0 <? total_deleted result);
              intros [F|[F|[F|[F|[F|[]]]]]]; discriminate.
        + rewrite (delete_rejected_run api c hashes NZ Hres Hdel).
          intros [F|[F|[F|[]]]]; discriminate.
      - rewrite (delete_unresolved_run api c e NZ Hres).
        intros [F|[F|[]]]; discriminate. }
    split; [|intros _; exact Hno].
    split; [discriminate|].
    intros E. exfalso. apply Hno. rewrite E. now left.
Qed.

Lemma validation_toast_iff_disabled_witness :
  deleteDisabled two_loaded = true
  /\ trace (handleDeleteSelected (host := date_only_host) api_ok) two_loaded
     = [ToastError "No documents selected"].
Proof.
  split; [reflexivity|].
  exact (proj1 (proj1 (validation_toast_iff_disabled
                         (host := date_only_host) api_ok two_loaded))
               eq_refl).
Defined.

(** ** The selection names loaded documents *)

Lemma selectionLoaded_resolves (c : Component) :
  selectionLoaded c -> exists hashes, resolveSelection c = Normal hashes.
Proof.
  intros Hinv.
  destruct (resolve_total (documents c)
              (StrSet.to_array (selectedDocuments c)) c) as [hashes [Hr _]].
  - apply Forall_forall. exact Hinv.
  - now exists hashes.
Qed.

(** X18: the handlers keep the selection inside the collection.  In a
    state where every selected identifier and every visible row belongs to
    a loaded document, this is still so after a click on a visible row's
    check box, after 'Select All', after a header click and after a
    confirmed delete, whatever the backend answers; and in such a state
    the lookup of the deletion keys cannot throw, so a confirmed delete
    with a selection always reaches the delete request. *)
Theorem selection_stays_loaded {host : Host} (api : Server) (c : Component) :
  selectionLoaded c -> viewLoaded c ->
  (forall d, In d (filteredDocuments c) ->
             selectionLoaded (next (handleSelectDocument (id d)) c))
  /\ selectionLoaded (next handleSelectAll c)
  /\ (forall k, selectionLoaded (next (handleSort k) c))
  /\ selectionLoaded (next (handleDeleteSelected api) c)
  /\ (exists hashes,
        resolveSelection c = Normal hashes
        /\ (StrSet.size (selectedDocuments c) <> 0 ->
            exists rest, trace (handleDeleteSelected api) c
                         = CallDeleteDocuments hashes :: rest)).
Proof.
  intros Hsel Hview.
  split; [|split; [|split; [|split]]].
  - intros d Hd i Hi.
    rewrite handleSelectDocument_next in Hi.
    assert (D : documents (next (handleSelectDocument (id d)) c)
                = documents c) by reflexivity.
    rewrite D.
    destruct (StrSet.has (id d) (selectedDocuments c)).
    + unfold StrSet.delete in Hi. apply filter_In in Hi.
      apply Hsel. tauto.
    + apply (proj1 (StrSet_add_In _ _ _)) in Hi. destruct Hi as [->|Hi].
      * exists d. split; [now apply Hview | reflexivity].
      * now apply Hsel.
  - intros i Hi. rewrite handleSelectAll_next in Hi.
    assert (D : documents (next handleSelectAll c) = documents c)
      by now rewrite handleSelectAll_next.
    rewrite D.
    unfold withSelection, state_of, setSelectedDocuments, modify in Hi.
    cbn [fst snd selectedDocuments] in Hi.
    destruct (StrSet.size (selectedDocuments c)
              =? Z.of_nat (List.length (filteredDocuments c)));
      [contradiction|].
    apply (proj1 (StrSet_of_array_In _ _)) in Hi. unfold visibleIds in Hi.
    apply in_map_iff in Hi. destruct Hi as [d [E Hd]].
    exists d. split; [now apply Hview | assumption].
  - intros k i Hi. exact (Hsel i Hi).
  - destruct (Z.eq_dec (StrSet.size (selectedDocuments c)) 0) as [Z0|NZ].
    + unfold next. now rewrite (delete_empty_run api c Z0).
    + unfold next.
      destruct (resolveSelection c) as [hashes|e] eqn:Hres.
      * destruct (deleteDocuments api hashes) as [result|] eqn:Hdel.
        -- rewrite (delete_resolved_run api c hashes result NZ Hres Hdel).
           cbn [fst snd]. intros i Hi.
           unfold withShowDeleteConfirm, state_of at 1 in Hi.
           cbn [fst snd] in Hi.
           unfold setShowDeleteConfirm, modify in Hi.
           cbn [fst snd selectedDocuments] in Hi.
           destruct (loadDocuments_one_request api
                       (withSelection StrSet.empty c)) as (_ & Hkeep & _).
           rewrite Hkeep in Hi. contradiction.
        -- rewrite (delete_rejected_run api c hashes NZ Hres Hdel).
           exact Hsel.
      * rewrite (delete_unresolved_run api c e NZ Hres). exact Hsel.
  - destruct (selectionLoaded_resolves c Hsel) as [hashes Hres].
    exists hashes. split; [exact Hres|].
    intros NZ. unfold trace.
    destruct (deleteDocuments api hashes) as [result|] eqn:Hdel.
    + rewrite (delete_resolved_run api c hashes result NZ Hres Hdel).
      eexists. reflexivity.
    + rewrite (delete_rejected_run api c hashes NZ Hres Hdel).
      eexists. reflexivity.
Qed.

Lemma selection_stays_loaded_witness :
  selectionLoaded all_selected
  /\ viewLoaded all_selected
  /\ selectionLoaded
       (next (handleDeleteSelected (host := date_only_host) api_down)
             all_selected).
Proof.
  assert (Hsel : selectionLoaded all_selected).
  { intros i [<-|[<-|[]]];
      [exists doc_a | exists doc_b]; split; simpl; auto. }
  assert (Hview : viewLoaded all_selected).
  { intros d Hd. exact Hd. }
  split; [exact Hsel|]. split; [exact Hview|].
  exact (proj1 (proj2 (proj2 (proj2
           (selection_stays_loaded (host := date_only_host) api_down
              all_selected Hsel Hview))))).
Defined.

End ManageSourceMore.
